(** * darkskyplot: the interpolation pipeline of [darskyplot.py]

    A shallow embedding of the sky-darkness plotting script:
    [polarctes.py] (the angle grids and data-file constants) and
    [darskyplot.py] ([data_is_valid], [read_data_files],
    [interpolate_sky_measures], [prepare_interp_measures], [plot_polar],
    [main]).

    Conventions of the embedding.
    - Python [float] values are modelled as exact rationals ([Q]); the
      properties below are about lengths, indices and which cell holds
      which value, none depends on rounding.
    - A Python call either returns or raises: [result A].
    - A numpy 1-D array is a [list Q]; a 2-D array is the list of its rows.
    - [np.interp] and the builtin [float] belong to libraries, not to the
      script; [np.interp] is written out after numpy's compiled loop and
      [float] is a parameter of the ingestion functions.
    - Of [plot_polar] the embedding keeps what reaches the renderer (the
      title, the axis and the arrays given to [contour] and [contourf]);
      the matplotlib calls themselves are left out. *)

From Stdlib Require Import String Ascii DecimalString.
From Stdlib Require Import List ZArith QArith Qreduction Lia Lqa Bool Arith.
From Equations Require Import Equations.
Import ListNotations.

Close Scope Q_scope.
Open Scope nat_scope.

(** ** Python outcomes *)

Inductive exn : Type := ValueError | IndexError.

Inductive result (A : Type) : Type :=
| Ok (a : A)
| Raise (e : exn).

Arguments Ok {A} a.
Arguments Raise {A} e.

Definition bind {A B : Type} (m : result A) (k : A -> result B) : result B :=
  match m with
  | Ok a => k a
  | Raise e => Raise e
  end.

Notation "x <- m ;; k" := (bind m (fun x => k))
  (at level 61, m at next level, right associativity).

(** [for x in l: s = body(x, s)], stopping at the first exception. *)
Fixpoint for_each {A S : Type} (l : list A) (body : A -> S -> result S) (s : S)
  : result S :=
  match l with
  | [] => Ok s
  | a :: l' => s' <- body a s ;; for_each l' body s'
  end.

(** ** polarctes.py: constants *)

(** [range(a, b)] and [range(a, b, -1)]. *)
Definition py_range (a b : Z) : list Z :=
  map (fun k => (a + Z.of_nat k)%Z) (seq 0 (Z.to_nat (b - a))).

Definition py_range_down (a b : Z) : list Z :=
  map (fun k => (a - Z.of_nat k)%Z) (seq 0 (Z.to_nat (a - b))).

Definition DATA_FILE_MIN_LINES : nat := 2.
Definition DATA_FILE_ITEM_WITH_TITLE : nat := 0.
Definition DATA_FILE_ITEM_WITH_DATA : nat := 1.
Definition DATA_SEPARATOR : ascii := ","%char.
Definition DATA_SIZE : nat := 65.

Definition ZENITHS : list Z := [20; 40; 60; 80; 90]%Z.

Definition ALL_ZENITH_VALUES : list Z :=
  py_range (hd 0%Z ZENITHS) (last ZENITHS 0%Z + 1).

Definition ALL_ZENITH_VALUES_INV : list Z :=
  py_range_down (last ZENITHS 0%Z) (hd 0%Z ZENITHS - 1).

Definition AZIMUTHS : list Z :=
  [0; 30; 60; 90; 120; 150; 180; 210; 240; 270; 300; 330; 360]%Z.

Definition AZIMUTH_RANGE : list Z :=
  py_range (hd 0%Z AZIMUTHS) (last AZIMUTHS 0%Z + 1).

Definition LIGHTEST_VALUE : Q := 19%Q.
Definition DARKER_VALUE : Q := 22%Q.

(** ** numpy: [np.interp], slicing, reshape *)

Definition Qltb (x y : Q) : bool := negb (Qle_bool y x).

(** The interval search and the linear formula of numpy's loop:
    the first [j] with [x < xp[j+1]] gives
    [(fp[j+1] - fp[j]) / (xp[j+1] - xp[j]) * (x - xp[j]) + fp[j]];
    at or beyond the last sample point the result is the last [fp]. *)
Fixpoint interp_from (x : Q) (xp fp : list Q) {struct xp} : Q :=
  match xp, fp with
  | x0 :: xp', y0 :: fp' =>
      match xp', fp' with
      | x1 :: _, y1 :: _ =>
          if Qltb x x1
          then ((y1 - y0) / (x1 - x0) * (x - x0) + y0)%Q
          else interp_from x xp' fp'
      | _, _ => y0
      end
  | _, _ => 0%Q
  end.

(** One query point; left of the first sample point the result is [fp[0]]. *)
Definition interp1 (xp fp : list Q) (x : Q) : Q :=
  match xp, fp with
  | x0 :: _, y0 :: _ => if Qltb x x0 then y0 else interp_from x xp fp
  | _, _ => 0%Q
  end.

(** [np.interp(x, xp, fp)]: ValueError on an empty [xp] or when [fp] and
    [xp] differ in length. *)
Definition np_interp (x xp : list Z) (fp : list Q) : result (list Q) :=
  if (length xp =? 0)%nat then Raise ValueError
  else if negb (length fp =? length xp)%nat then Raise ValueError
  else Ok (map (fun q => interp1 (map inject_Z xp) fp (inject_Z q)) x).

(** [l[i:j]] for [0 <= i <= j]: never raises, truncates at the end. *)
Definition slice {A : Type} (l : list A) (i j : nat) : list A :=
  firstn (j - i) (skipn i l).

(** [a[index]] on a 1-D array, [index >= 0]. *)
Definition getitem {A : Type} (a : list A) (index : nat) : result A :=
  match nth_error a index with
  | Some v => Ok v
  | None => Raise IndexError
  end.

(** ** darskyplot.py: interpolate_sky_measures *)

(** The [while i < len(initial_values)] loop; [i] grows by [len(ZENITHS)]. *)
Equations? zenith_loop (initial_values : list Q) (i : nat)
  (interp_zeniths : list Q) : result (list Q)
  by wf (length initial_values - i) lt :=
  zenith_loop initial_values i interp_zeniths
    with lt_dec i (length initial_values) => {
    | left _ with np_interp ALL_ZENITH_VALUES ZENITHS
                    (slice initial_values i (i + length ZENITHS)) => {
        | Ok int =>
            zenith_loop initial_values (i + length ZENITHS)
              (interp_zeniths ++ int)
        | Raise e => Raise e }
    | right _ => Ok interp_zeniths }.
Proof. simpl. lia. Qed.

(** The inner [for j in range(len(AZIMUTHS))] loop for zenith index [i]. *)
Definition gather_at_zenith (interp_zeniths : list Q) (i : nat)
  : result (list Q) :=
  for_each (seq 0 (length AZIMUTHS))
    (fun j values_at_zenith =>
       let index := i + length ALL_ZENITH_VALUES * j in
       v <- getitem interp_zeniths index ;;
       Ok (values_at_zenith ++ [v]))
    [].

(** [np.interp(AZIMUTH_RANGE, AZIMUTHS, values_at_zenith)[:-1]]. *)
Definition azimuth_sweep (values_at_zenith : list Q) : result (list Q) :=
  int <- np_interp AZIMUTH_RANGE AZIMUTHS values_at_zenith ;;
  Ok (removelast int).

(** The outer [for i in range(len(ALL_ZENITH_VALUES))] loop. *)
Definition azimuth_loop (interp_zeniths : list Q) : result (list Q) :=
  for_each (seq 0 (length ALL_ZENITH_VALUES))
    (fun i all_azimuths =>
       values_at_zenith <- gather_at_zenith interp_zeniths i ;;
       int <- azimuth_sweep values_at_zenith ;;
       Ok (all_azimuths ++ int))
    [].

Definition interpolate_sky_measures (initial_values : list Q)
  : result (list Q) :=
  interp_zeniths <- zenith_loop initial_values 0 [] ;;
  azimuth_loop interp_zeniths.

(** ** numpy: 2-D arrays *)

Definition grid : Type := list (list Q).

(** The cells of [a.reshape(rows, cols, order='F')]: the first index changes
    fastest, so cell [(r, c)] is element [r + rows * c]. *)
Definition reshaped (a : list Q) (rows cols : nat) : grid :=
  map (fun r => map (fun c => nth (r + rows * c) a 0%Q) (seq 0 cols))
    (seq 0 rows).

(** [a.reshape(rows, cols, order='F')]: ValueError on a size mismatch. *)
Definition reshape_F (a : list Q) (rows cols : nat) : result grid :=
  if length a =? rows * cols then Ok (reshaped a rows cols)
  else Raise ValueError.

Fixpoint update {A : Type} (l : list A) (i : nat) (v : A) : list A :=
  match l, i with
  | [], _ => []
  | _ :: t, O => v :: t
  | h :: t, S i' => h :: update t i' v
  end.

(** [a[index] = v], [index >= 0]. *)
Definition setitem {A : Type} (a : list A) (index : nat) (v : A)
  : result (list A) :=
  if index <? length a then Ok (update a index v) else Raise IndexError.

(** The index [-1] of a sequence of length [n]; on an empty sequence the
    lookup at the result is out of range, as in Python. *)
Definition last_index (n : nat) : nat := n - 1.

(** [g[r][c] = v]. *)
Definition setcell (g : grid) (r c : nat) (v : Q) : result grid :=
  row <- getitem g r ;;
  row' <- setitem row c v ;;
  setitem g r row'.

(** [g[r][c]], with a default outside the array, for statements only. *)
Definition cell (g : grid) (r c : nat) : Q := nth c (nth r g []) 0%Q.

(** [np.radians(d)] is [d * pi / 180]; the angle is kept symbolic. *)
Inductive angle : Type := Radians (deg : Z).

Definition np_radians (l : list Z) : list angle := map Radians l.

(** ** darskyplot.py: prepare_interp_measures *)

(** [np.append(interp_measures, interp_measures[:71])]. *)
Definition append_wrap (interp_measures : list Q) : list Q :=
  interp_measures ++ slice interp_measures 0 71.

Definition prepare_interp_measures (interp_measures : list Q)
  : result (list angle * grid) :=
  let interp_measures := append_wrap interp_measures in
  let azimuths := np_radians AZIMUTH_RANGE in
  interp_measures <-
    reshape_F interp_measures (length azimuths) (length ALL_ZENITH_VALUES_INV) ;;
  row0 <- getitem interp_measures 0 ;;
  interp_measures <-
    setitem interp_measures (last_index (length interp_measures)) row0 ;;
  Ok (azimuths, interp_measures).

(** ** darskyplot.py: plot_polar *)

(** What the renderer is given: the processed title, the radian axis, the
    array passed to [ax.contour] and the array passed to [ax.contourf]. *)
Record figure : Type := Figure {
  fig_title : string;
  fig_theta : list angle;
  fig_contour : grid;
  fig_contourf : grid
}.

(** [re.sub('[\t\n]', ' ', title)]. *)
Fixpoint title_processed (title : string) : string :=
  match title with
  | EmptyString => EmptyString
  | String c s =>
      String (if (Ascii.eqb c "009" || Ascii.eqb c "010")%bool then " "%char else c)
        (title_processed s)
  end.

(** The two assignments under [if not progargs.use_data_for_color_range]. *)
Definition set_color_range (interp_measures : grid) : result grid :=
  interp_measures <- setcell interp_measures 0 0 LIGHTEST_VALUE ;;
  let r := last_index (length interp_measures) in
  let c := last_index (length (nth r interp_measures [])) in
  setcell interp_measures r c DARKER_VALUE.

Definition plot_polar (title : string) (initial_values : list Q)
  (use_data_for_color_range : bool) : result figure :=
  interp_measures <- interpolate_sky_measures initial_values ;;
  prepared <- prepare_interp_measures interp_measures ;;
  let '(azimuths, interp_measures) := prepared in
  let contour_data := interp_measures in
  interp_measures <-
    (if negb use_data_for_color_range
     then set_color_range interp_measures
     else Ok interp_measures) ;;
  Ok (Figure (title_processed title) azimuths contour_data interp_measures).

(** The whole numeric pipeline of [plot_polar], up to the assembled grid. *)
Definition assembled_grid (initial_values : list Q) : result grid :=
  interp_measures <- interpolate_sky_measures initial_values ;;
  prepared <- prepare_interp_measures interp_measures ;;
  Ok (snd prepared).

(** ** Ingestion: data_is_valid, read_data_files, main *)

(** A call that logs warnings on the way: the messages passed to
    [logging.warning], in order, and how the call ended. *)
Definition logged (A : Type) : Type := (list string * result A)%type.

Definition ret {A : Type} (a : A) : logged A := ([], Ok a).

Definition lift {A : Type} (r : result A) : logged A := ([], r).

Definition warning (msg : string) : logged unit := ([msg], Ok tt).

Definition lbind {A B : Type} (m : logged A) (k : A -> logged B) : logged B :=
  match m with
  | (w, Ok a) => let (w', r) := k a in (w ++ w', r)
  | (w, Raise e) => (w, Raise e)
  end.

Notation "x <~ m ;; k" := (lbind m (fun x => k))
  (at level 61, m at next level, right associativity).

Notation "m ;;; k" := (lbind m (fun _ => k))
  (at level 61, right associativity).

(** [for x in l: s = body(x, s)] with logging. *)
Fixpoint lfor_each {A S : Type} (l : list A) (body : A -> S -> logged S) (s : S)
  : logged S :=
  match l with
  | [] => ret s
  | a :: l' => s' <~ body a s ;; lfor_each l' body s'
  end.

(** [s.split(sep)] for a one-character separator. *)
Fixpoint split (sep : ascii) (s : string) : list string :=
  match s with
  | EmptyString => [EmptyString]
  | String c s' =>
      if Ascii.eqb c sep then EmptyString :: split sep s'
      else match split sep s' with
           | [] => [String c EmptyString]
           | w :: ws => String c w :: ws
           end
  end.

(** [str(n)] for a length. *)
Definition str (n : nat) : string := NilEmpty.string_of_uint (Nat.to_uint n).

(** [[f(i) for i in l]]: left to right, the first exception escapes. *)
Fixpoint comprehension {A B : Type} (f : A -> result B) (l : list A)
  : result (list B) :=
  match l with
  | [] => Ok []
  | a :: l' => b <- f a ;; bs <- comprehension f l' ;; Ok (b :: bs)
  end.

(** [isinstance(x, float)] on a value that [float(...)] returned. *)
Definition isinstance_float (x : Q) : bool := true.

Section Ingestion.

(** The builtin [float(s)]: the number [s] spells, or ValueError. *)
Variable float : string -> result Q.

Definition data_is_valid (data_read : list string)
  : logged (option (string * list Q)) :=
  if DATA_FILE_MIN_LINES <=? length data_read then
    data_line <~ lift (getitem data_read DATA_FILE_ITEM_WITH_DATA) ;;
    let data_line_split := split DATA_SEPARATOR data_line in
    if length data_line_split =? DATA_SIZE then
      data_numbers <~ lift (comprehension float data_line_split) ;;
      if forallb isinstance_float data_numbers then
        title <~ lift (getitem data_read DATA_FILE_ITEM_WITH_TITLE) ;;
        ret (Some (title, data_numbers))
      else
        warning "Data contains items that are not real numbers." ;;;
        ret None
    else
      warning ("Data size is not valid: " ++ str (length data_line_split)) ;;;
      ret None
  else
    warning ("Number of lines in files is not enough:"
             ++ str (length data_read)) ;;;
    ret None.

(** [read_data_files], over the files the glob found: each one a name and
    its text lines. *)
Definition read_data_files (files : list (string * list string))
  : logged (list (string * list Q)) :=
  lfor_each files
    (fun file data =>
       let '(data_file_name, this_data) := file in
       data_read <~ data_is_valid this_data ;;
       match data_read with
       | Some item => ret (data ++ [item])
       | None =>
           warning ("Data is not valid from file: " ++ data_file_name) ;;;
           ret data
       end)
    [].

(** [main]: one [plot_polar] call per item that [read_data_files] kept. *)
Definition main (files : list (string * list string))
  (use_data_for_color_range : bool) : logged (list figure) :=
  data <~ read_data_files files ;;
  lfor_each data
    (fun data_item shown =>
       fig <~ lift (plot_polar (fst data_item) (snd data_item)
                      use_data_for_color_range) ;;
       ret (shown ++ [fig]))
    [].

End Ingestion.

(** ** An instance of the builtin [float] on decimal literals

    [  [sign] digits [. digits] [(e|E) [sign] digits]  ] between optional
    white space, with at least one mantissa digit. The spellings of
    infinities and NaN, which have no rational value, are left out. *)

Definition is_space (c : ascii) : bool :=
  match nat_of_ascii c with
  | 9 | 10 | 11 | 12 | 13 | 32 => true
  | _ => false
  end.

Definition digit_of (c : ascii) : option Z :=
  let n := nat_of_ascii c in
  if ((48 <=? n) && (n <=? 57))%bool then Some (Z.of_nat (n - 48)) else None.

Fixpoint lstrip (s : list ascii) : list ascii :=
  match s with
  | c :: s' => if is_space c then lstrip s' else s
  | [] => []
  end.

Definition strip (s : list ascii) : list ascii := rev (lstrip (rev (lstrip s))).

(** Reads a run of digits: the number read so far, how many digits, the rest. *)
Fixpoint digits (acc : Z) (n : nat) (s : list ascii) : Z * nat * list ascii :=
  match s with
  | c :: s' =>
      match digit_of c with
      | Some d => digits (10 * acc + d)%Z (S n) s'
      | None => (acc, n, s)
      end
  | [] => (acc, n, [])
  end.

Definition sign (s : list ascii) : bool * list ascii :=
  match s with
  | c :: s' =>
      if Ascii.eqb c "-" then (true, s')
      else if Ascii.eqb c "+" then (false, s')
      else (false, s)
  | [] => (false, [])
  end.

Definition float_of_decimal (s : string) : result Q :=
  let cs := strip (list_ascii_of_string s) in
  let (neg, cs) := sign cs in
  let '(ip, ni, cs) := digits 0 0 cs in
  let '(m, nf, cs) :=
    match cs with
    | c :: cs' => if Ascii.eqb c "." then digits ip 0 cs' else (ip, 0, cs)
    | [] => (ip, 0, cs)
    end in
  if ni + nf =? 0 then Raise ValueError
  else
    let mant := Qmake (if neg then - m else m) (Z.to_pos (10 ^ Z.of_nat nf)) in
    match cs with
    | [] => Ok mant
    | c :: cs' =>
        if (Ascii.eqb c "e" || Ascii.eqb c "E")%bool then
          let (eneg, cs'') := sign cs' in
          let '(ev, ne, rest) := digits 0 0 cs'' in
          match ne, rest with
          | S _, [] =>
              Ok (mant * Qpower (inject_Z 10) (if eneg then - ev else ev))%Q
          | _, _ => Raise ValueError
          end
        else Raise ValueError
    end.

(** ** Sample records and data files *)

(** 65 values: [v] at every zenith of the azimuth block [b], [w] elsewhere. *)
Definition block_record (b : nat) (v w : Q) : list Q :=
  map (fun k => if k / length ZENITHS =? b then v else w) (seq 0 DATA_SIZE).

(** One at azimuth 30 degrees, zero elsewhere. *)
Definition spike_record : list Q := block_record 1 1%Q 0%Q.

(** The measures filed under 360 degrees differ from those under 0 degrees. *)
Definition open_record : list Q := block_record 12 1%Q 0%Q.

(** Twelve azimuth blocks only: 60 values. *)
Definition short_record : list Q := repeat 5%Q 60.

Definition constant_record : list Q := repeat 5%Q DATA_SIZE.

(** [sep.join(l)]. *)
Fixpoint join (sep : string) (l : list string) : string :=
  match l with
  | [] => EmptyString
  | [w] => w
  | w :: l' => (w ++ sep ++ join sep l')%string
  end.

Definition newline : string := String "010" EmptyString.

(** A well-formed file: a title line and 65 decimal entries. *)
Definition good_file : list string :=
  [("Site A" ++ newline)%string;
   (join "," (repeat "21.5"%string 65) ++ newline)%string].

(** 64 entries on the data line. *)
Definition file_64 : list string :=
  [("Site B" ++ newline)%string;
   (join "," (repeat "21.5"%string 64) ++ newline)%string].

(** 60 entries on the data line: twelve azimuths of five zeniths. *)
Definition file_60 : list string :=
  [("Site D" ++ newline)%string;
   (join "," (repeat "21.5"%string 60) ++ newline)%string].

(** 65 entries, the last of them not a number. *)
Definition file_nan_entry : list string :=
  [("Site C" ++ newline)%string;
   (join "," (repeat "21.5"%string 64 ++ ["abc"%string]) ++ newline)%string].

(** ** Names for the intermediate values of the pipeline *)

(** What [np.interp(ALL_ZENITH_VALUES, ZENITHS, yp)] holds for a block [yp]
    of five measures. *)
Definition zenith_profile (yp : list Q) : list Q :=
  map (fun q => interp1 (map inject_Z ZENITHS) yp (inject_Z q))
    ALL_ZENITH_VALUES.

(** What [np.interp(AZIMUTH_RANGE, AZIMUTHS, values_at_zenith)] holds, before
    its last value is dropped. *)
Definition azimuth_profile (values_at_zenith : list Q) : list Q :=
  map (fun q => interp1 (map inject_Z AZIMUTHS) values_at_zenith (inject_Z q))
    AZIMUTH_RANGE.

(** The values the inner loop gathers for zenith index [i]. *)
Definition gathered (interp_zeniths : list Q) (i : nat) : list Q :=
  map (fun j => nth (i + length ALL_ZENITH_VALUES * j) interp_zeniths 0%Q)
    (seq 0 (length AZIMUTHS)).

(** The [k]-th block of five measures of a record. *)
Definition block (initial_values : list Q) (k : nat) : list Q :=
  slice initial_values (length ZENITHS * k) (length ZENITHS * k + length ZENITHS).

(** The Interpolated Zenith Sequence of a record of thirteen blocks. *)
Definition interp_zeniths_of (initial_values : list Q) : list Q :=
  flat_map (fun k => zenith_profile (block initial_values k))
    (seq 0 (length AZIMUTHS)).

(** The dense azimuth sweep kept for zenith index [i]. *)
Definition sweep (interp_zeniths : list Q) (i : nat) : list Q :=
  removelast (azimuth_profile (gathered interp_zeniths i)).

(** The zenith-major dense sequence. *)
Definition all_azimuths_of (interp_zeniths : list Q) : list Q :=
  flat_map (sweep interp_zeniths) (seq 0 (length ALL_ZENITH_VALUES)).

(** ** The specification's wording of four properties *)

(** The index of a sampled angle in the dense grid that contains it. *)
Definition dense_azimuth_index (a : Z) : nat :=
  Z.to_nat (a - hd 0%Z AZIMUTH_RANGE).

Definition dense_zenith_index (z : Z) : nat :=
  Z.to_nat (z - hd 0%Z ALL_ZENITH_VALUES).

(** The measure a record files under its [j]-th azimuth and [k]-th zenith. *)
Definition measure (initial_values : list Q) (j k : nat) : Q :=
  nth (length ZENITHS * j + k) initial_values 0%Q.

(** Interpolation exactness at samples. *)
Definition exact_at_samples (initial_values : list Q) (g : grid) : Prop :=
  forall j k,
    j < length AZIMUTHS -> k < length ZENITHS ->
    length ZENITHS * j + k < length initial_values ->
    (cell g (dense_azimuth_index (nth j AZIMUTHS 0%Z))
            (dense_zenith_index (nth k ZENITHS 0%Z))
     == measure initial_values j k)%Q.

(** The zenith profile of dense azimuth [a] inside a zenith-major sequence
    of sweeps that are one shorter than [AZIMUTH_RANGE]. *)
Definition zenith_profile_at (all_azimuths : list Q) (a : nat) : list Q :=
  map (fun i => nth ((length AZIMUTH_RANGE - 1) * i + a) all_azimuths 0%Q)
    (seq 0 (length ALL_ZENITH_VALUES)).

(** Assembly step 1 as worded: [len(dense_zeniths) - 1] values are
    appended, they are the zenith profile of azimuth 0 without its last
    element, and the reshape succeeds. *)
Definition wrap_as_specified (all_azimuths : list Q) : Prop :=
  let n := length ALL_ZENITH_VALUES - 1 in
  append_wrap all_azimuths = all_azimuths ++ slice all_azimuths 0 n /\
  slice all_azimuths 0 n = removelast (zenith_profile_at all_azimuths 0) /\
  exists g,
    reshape_F (append_wrap all_azimuths)
      (length AZIMUTH_RANGE) (length ALL_ZENITH_VALUES) = Ok g.

(** The azimuth profile as worded: one value from each of [N_a - 1]
    blocks, then its own first value once more; the dropped last output
    duplicates the output at azimuth 0. *)
Definition profile_as_specified (interp_zeniths : list Q) (z : nat) : Prop :=
  exists profile int,
    length profile = length AZIMUTHS - 1 /\
    (forall j, j < length AZIMUTHS - 1 ->
       nth j profile 0%Q =
       nth (z + length ALL_ZENITH_VALUES * j) interp_zeniths 0%Q) /\
    gather_at_zenith interp_zeniths z = Ok (profile ++ [hd 0%Q profile]) /\
    np_interp AZIMUTH_RANGE AZIMUTHS (profile ++ [hd 0%Q profile]) = Ok int /\
    (last int 0 == nth 0 int 0)%Q.

(** The zenith pass as worded: on [(N_a - 1) * N_z] values it yields
    [(N_a - 1) * len(dense_zeniths)] values and the pipeline does not fail. *)
Definition pipeline_as_specified (initial_values : list Q) : Prop :=
  length initial_values = (length AZIMUTHS - 1) * length ZENITHS ->
  (exists interp_zeniths,
      zenith_loop initial_values 0 [] = Ok interp_zeniths /\
      length interp_zeniths =
      (length AZIMUTHS - 1) * length ALL_ZENITH_VALUES) /\
  (exists g, assembled_grid initial_values = Ok g).

(** The number of entries on the data line of a file, if it has one. *)
Definition entry_count (data_read : list string) : option nat :=
  option_map (fun data_line => length (split DATA_SEPARATOR data_line))
    (nth_error data_read DATA_FILE_ITEM_WITH_DATA).

(** The entry-count check as worded: what is accepted has
    [(N_a - 1) * N_z] entries. *)
Definition count_as_specified (float : string -> result Q)
  (data_read : list string) : Prop :=
  forall w item,
    data_is_valid float data_read = (w, Ok (Some item)) ->
    entry_count data_read = Some ((length AZIMUTHS - 1) * length ZENITHS).

(** ** Further definitions: sample points, bounds, arguments, logging *)

(** Sample points in strictly increasing order, as [np.interp] expects. *)
Fixpoint strictly_increasing (xp : list Q) : Prop :=
  match xp with
  | x0 :: xp' =>
      match xp' with
      | x1 :: _ => (x0 < x1)%Q /\ strictly_increasing xp'
      | [] => True
      end
  | [] => True
  end.

(** A value between two bounds. *)
Definition between (lo hi y : Q) : Prop := (lo <= y)%Q /\ (y <= hi)%Q.

(** How many times a character occurs in a string. *)
Fixpoint occurrences (c : ascii) (s : string) : nat :=
  match s with
  | EmptyString => 0
  | String c' s' => (if Ascii.eqb c' c then 1 else 0) + occurrences c s'
  end.

(** What [read_data_files] keeps of one file when [data_is_valid] returns. *)
Definition kept (float : string -> result Q) (file : string * list string)
  : list (string * list Q) :=
  match snd (data_is_valid float (snd file)) with
  | Ok (Some item) => [item]
  | _ => []
  end.

(** The warnings [read_data_files] logs for one file when [data_is_valid]
    returns: those of [data_is_valid], then its own for a refused file. *)
Definition file_warnings (float : string -> result Q)
  (file : string * list string) : list string :=
  fst (data_is_valid float (snd file)) ++
  match snd (data_is_valid float (snd file)) with
  | Ok None => [("Data is not valid from file: " ++ fst file)%string]
  | _ => []
  end.

(** ** pargparser.py and init_log *)

(** The namespace [parse_args] returns: [-p], [-s], [-r], [-l], [-v]. *)
Record args : Type := Args {
  arg_p : option string;
  arg_s : bool;
  arg_r : bool;
  arg_l : option string;
  arg_v : option string
}.

(** [ProgramArguments] after [parse]: the working directory that
    [__init__] stored, and the parsed namespace. *)
Record ProgramArguments : Type := Progargs {
  cwd : string;
  parsed : args
}.

(** [parse] replaces the stored path when [-p] was given. *)
Definition data_files_path (progargs : ProgramArguments) : string :=
  match arg_p (parsed progargs) with
  | Some path => path
  | None => cwd progargs
  end.

Definition save_figures_to_file (progargs : ProgramArguments) : bool :=
  arg_s (parsed progargs).

Definition use_data_for_color_range (progargs : ProgramArguments) : bool :=
  arg_r (parsed progargs).

Definition log_file_provided (progargs : ProgramArguments) : bool :=
  match arg_l (parsed progargs) with Some _ => true | None => false end.

Definition log_level_provided (progargs : ProgramArguments) : bool :=
  match arg_v (parsed progargs) with Some _ => true | None => false end.

(** [LOG_LEVELS], with the numeric levels of the [logging] module. *)
Definition LOG_LEVELS : list (string * nat) :=
  [("CRITICAL"%string, 50); ("ERROR"%string, 40); ("WARNING"%string, 30);
   ("INFO"%string, 20); ("DEBUG"%string, 10)].

Definition DEFAULT_LOG_LEVEL_NAME : string := "WARNING".

(** [d[key]] on a dict written as its list of items. *)
Fixpoint dict_get {V : Type} (d : list (string * V)) (key : string)
  : option V :=
  match d with
  | [] => None
  | (k, v) :: d' => if String.eqb k key then Some v else dict_get d' key
  end.

(** What the stream handler is built on. *)
Inductive log_target : Type :=
| Stdout
| Named (log_file_name : string).

(** How [init_log] ends: the level set on the root logger and the handler's
    target, or the KeyError of the lookup in [LOG_LEVELS]. *)
Inductive init_outcome : Type :=
| Configured (logging_level : nat) (log_file : log_target)
| KeyError (key : string).

Definition init_log (progargs : ProgramArguments) : init_outcome :=
  let level_name :=
    match arg_v (parsed progargs) with
    | Some name => name
    | None => DEFAULT_LOG_LEVEL_NAME
    end in
  match dict_get LOG_LEVELS level_name with
  | None => KeyError level_name
  | Some logging_level =>
      Configured logging_level
        match arg_l (parsed progargs) with
        | Some name => Named name
        | None => Stdout
        end
  end.

(** * Properties *)

(** ** Sizes of the angle grids *)

Lemma len_ZENITHS : length ZENITHS = 5.
Proof. reflexivity. Qed.

Lemma len_AZIMUTHS : length AZIMUTHS = 13.
Proof. reflexivity. Qed.

Lemma len_ALL_ZENITH_VALUES : length ALL_ZENITH_VALUES = 71.
Proof. reflexivity. Qed.

Lemma len_ALL_ZENITH_VALUES_INV : length ALL_ZENITH_VALUES_INV = 71.
Proof. reflexivity. Qed.

Lemma len_AZIMUTH_RANGE : length AZIMUTH_RANGE = 361.
Proof. reflexivity. Qed.

(** ** Loops that append *)

Lemma for_each_append {A B : Type} (body : A -> list B -> result (list B))
  (g : A -> list B) (l : list A) :
  (forall a acc, In a l -> body a acc = Ok (acc ++ g a)) ->
  forall acc, for_each l body acc = Ok (acc ++ flat_map g l).
Proof.
  induction l as [|a l IH]; intros Hbody acc; cbn [for_each flat_map].
  - now rewrite app_nil_r.
  - rewrite Hbody by now left.
    cbn [bind]. rewrite IH.
    + now rewrite app_assoc.
    + intros b acc' Hb. apply Hbody. now right.
Qed.

Lemma flat_map_length_uniform {A B : Type} (g : A -> list B) (n : nat)
  (l : list A) :
  (forall a, In a l -> length (g a) = n) ->
  length (flat_map g l) = n * length l.
Proof.
  induction l as [|a l IH]; intros Hn; cbn [flat_map length].
  - lia.
  - rewrite length_app, Hn by now left.
    rewrite IH by (intros b Hb; apply Hn; now right). lia.
Qed.

Lemma nth_flat_map_uniform {A B : Type} (g : A -> list B) (n : nat)
  (l : list A) (d : B) (a0 : A) :
  (forall a, In a l -> length (g a) = n) ->
  forall j i, i < n -> j < length l ->
  nth (n * j + i) (flat_map g l) d = nth i (g (nth j l a0)) d.
Proof.
  induction l as [|a l IH]; intros Hn j i Hi Hj; cbn [length] in Hj.
  - lia.
  - assert (Ha : length (g a) = n) by (apply Hn; now left).
    cbn [flat_map]. destruct j as [|j].
    + replace (n * 0 + i) with i by lia.
      rewrite app_nth1 by lia. reflexivity.
    + rewrite app_nth2 by lia.
      replace (n * S j + i - length (g a)) with (n * j + i) by lia.
      cbn [nth]. apply IH; try lia.
      intros b Hb. apply Hn. now right.
Qed.

Lemma flat_map_seq_shift {B : Type} (g : nat -> list B) (s k : nat) :
  flat_map g (seq (S s) k) = flat_map (fun b => g (S b)) (seq s k).
Proof.
  rewrite <- seq_shift, flat_map_concat_map, map_map, <- flat_map_concat_map.
  reflexivity.
Qed.

Lemma flat_map_singleton {A B : Type} (f : A -> B) (l : list A) :
  flat_map (fun a => [f a]) l = map f l.
Proof.
  induction l as [|a l IH]; cbn [flat_map map app]; congruence.
Qed.

(** ** np.interp *)

Lemma np_interp_ok (x xp : list Z) (fp : list Q) :
  xp <> [] -> length fp = length xp ->
  np_interp x xp fp =
  Ok (map (fun q => interp1 (map inject_Z xp) fp (inject_Z q)) x).
Proof.
  intros Hne Hlen. unfold np_interp.
  rewrite Hlen, Nat.eqb_refl.
  destruct xp as [|x0 xp]; [congruence|]. reflexivity.
Qed.

Lemma slice_length {A : Type} (l : list A) (i j : nat) :
  j <= length l -> length (slice l i j) = j - i.
Proof.
  intros Hj. unfold slice. rewrite length_firstn, length_skipn. lia.
Qed.

(** ** The zenith pass *)

Lemma zenith_loop_step (initial_values : list Q) (i : nat)
  (interp_zeniths : list Q) :
  zenith_loop initial_values i interp_zeniths =
  if i <? length initial_values then
    int <- np_interp ALL_ZENITH_VALUES ZENITHS
             (slice initial_values i (i + length ZENITHS)) ;;
    zenith_loop initial_values (i + length ZENITHS) (interp_zeniths ++ int)
  else Ok interp_zeniths.
Proof.
  simp zenith_loop.
  destruct (lt_dec i (length initial_values)) as [Hlt|Hge];
    destruct (Nat.ltb_spec i (length initial_values)); try lia.
  - unfold zenith_loop_unfold_clause_1.
    destruct (np_interp ALL_ZENITH_VALUES ZENITHS _); reflexivity.
  - reflexivity.
Qed.

Lemma zenith_loop_blocks (k : nat) :
  forall (initial_values : list Q) (i : nat) (interp_zeniths : list Q),
  length initial_values = i + 5 * k ->
  zenith_loop initial_values i interp_zeniths =
  Ok (interp_zeniths ++
      flat_map (fun b => zenith_profile (slice initial_values (i + 5 * b)
                                           (i + 5 * b + 5)))
        (seq 0 k)).
Proof.
  induction k as [|k IH]; intros vs i acc Hlen; rewrite zenith_loop_step.
  - destruct (Nat.ltb_spec i (length vs)); [lia|].
    cbn [seq flat_map]. now rewrite app_nil_r.
  - destruct (Nat.ltb_spec i (length vs)); [|lia].
    change (length ZENITHS) with 5.
    rewrite np_interp_ok.
    + cbn [bind]. rewrite IH by lia.
      rewrite <- app_assoc. do 2 f_equal.
      cbn [seq flat_map]. rewrite flat_map_seq_shift.
      replace (i + 5 * 0) with i by lia. f_equal.
      apply flat_map_ext. intros b.
      now replace (i + 5 + 5 * b) with (i + 5 * S b) by lia.
    + discriminate.
    + rewrite slice_length by lia. change (length ZENITHS) with 5. lia.
Qed.

Lemma zenith_pass_ok (initial_values : list Q) :
  length initial_values = DATA_SIZE ->
  zenith_loop initial_values 0 [] = Ok (interp_zeniths_of initial_values).
Proof.
  intros Hlen. rewrite (zenith_loop_blocks 13) by exact Hlen.
  reflexivity.
Qed.

Lemma zenith_profile_length (yp : list Q) : length (zenith_profile yp) = 71.
Proof. unfold zenith_profile. now rewrite length_map. Qed.

Lemma interp_zeniths_length (initial_values : list Q) :
  length (interp_zeniths_of initial_values) = 71 * 13.
Proof.
  unfold interp_zeniths_of.
  rewrite flat_map_length_uniform with (n := 71).
  - now rewrite length_seq.
  - intros. apply zenith_profile_length.
Qed.

Lemma nth_map_seq {B : Type} (f : nat -> B) (n r : nat) (d : B) :
  r < n -> nth r (map f (seq 0 n)) d = f r.
Proof.
  intros Hr. rewrite (nth_indep _ d (f 0)) by now rewrite length_map, length_seq.
  now rewrite map_nth, seq_nth.
Qed.

Lemma nth_interp_zeniths (initial_values : list Q) (i j : nat) :
  i < 71 -> j < 13 ->
  nth (i + 71 * j) (interp_zeniths_of initial_values) 0%Q =
  nth i (zenith_profile (block initial_values j)) 0%Q.
Proof.
  intros Hi Hj. unfold interp_zeniths_of.
  rewrite Nat.add_comm.
  rewrite nth_flat_map_uniform with (n := 71) (a0 := 0).
  - now rewrite seq_nth.
  - intros. apply zenith_profile_length.
  - exact Hi.
  - now rewrite length_seq.
Qed.

(** ** The azimuth pass *)

Lemma getitem_ok {A : Type} (a : list A) (index : nat) (d : A) :
  index < length a -> getitem a index = Ok (nth index a d).
Proof.
  intros Hlt. unfold getitem.
  destruct (nth_error a index) as [v|] eqn:E.
  - now rewrite (nth_error_nth _ _ d E).
  - apply nth_error_None in E. lia.
Qed.

Lemma gather_ok (interp_zeniths : list Q) (i : nat) :
  i + 71 * 12 < length interp_zeniths ->
  gather_at_zenith interp_zeniths i = Ok (gathered interp_zeniths i).
Proof.
  intros Hlen. unfold gather_at_zenith, gathered.
  rewrite (for_each_append _
             (fun j => [nth (i + length ALL_ZENITH_VALUES * j) interp_zeniths 0%Q])).
  - now rewrite flat_map_singleton.
  - intros j acc Hj. apply in_seq in Hj.
    rewrite len_AZIMUTHS in Hj. rewrite len_ALL_ZENITH_VALUES.
    rewrite (getitem_ok _ _ 0%Q) by lia. reflexivity.
Qed.

Lemma gathered_length (interp_zeniths : list Q) (i : nat) :
  length (gathered interp_zeniths i) = 13.
Proof. unfold gathered. now rewrite length_map, length_seq. Qed.

Lemma nth_gathered (interp_zeniths : list Q) (i j : nat) :
  j < 13 ->
  nth j (gathered interp_zeniths i) 0%Q = nth (i + 71 * j) interp_zeniths 0%Q.
Proof.
  intros Hj. unfold gathered. rewrite nth_map_seq by exact Hj.
  now rewrite len_ALL_ZENITH_VALUES.
Qed.

Lemma azimuth_sweep_ok (values_at_zenith : list Q) :
  length values_at_zenith = 13 ->
  azimuth_sweep values_at_zenith =
  Ok (removelast (azimuth_profile values_at_zenith)).
Proof.
  intros Hlen. unfold azimuth_sweep.
  rewrite np_interp_ok; [reflexivity|discriminate|exact Hlen].
Qed.

Lemma azimuth_profile_length (values_at_zenith : list Q) :
  length (azimuth_profile values_at_zenith) = 361.
Proof. unfold azimuth_profile. now rewrite length_map. Qed.

Lemma removelast_length {A : Type} (l : list A) :
  length (removelast l) = length l - 1.
Proof.
  rewrite removelast_firstn_len, length_firstn. unfold Nat.pred.
  destruct (length l); lia.
Qed.

Lemma nth_removelast {A : Type} (l : list A) (k : nat) (d : A) :
  k < length l - 1 -> nth k (removelast l) d = nth k l d.
Proof.
  intros Hk. rewrite removelast_firstn_len, nth_firstn.
  destruct (Nat.ltb_spec k (pred (length l))); [reflexivity|lia].
Qed.

Lemma sweep_length (interp_zeniths : list Q) (i : nat) :
  length (sweep interp_zeniths i) = 360.
Proof.
  unfold sweep. now rewrite removelast_length, azimuth_profile_length.
Qed.

Lemma azimuth_loop_ok (interp_zeniths : list Q) :
  length interp_zeniths = 71 * 13 ->
  azimuth_loop interp_zeniths = Ok (all_azimuths_of interp_zeniths).
Proof.
  intros Hlen. unfold azimuth_loop, all_azimuths_of.
  rewrite (for_each_append _ (sweep interp_zeniths)); [reflexivity|].
  intros i acc Hi. apply in_seq in Hi. rewrite len_ALL_ZENITH_VALUES in Hi.
  rewrite gather_ok by lia. cbn [bind].
  rewrite azimuth_sweep_ok by apply gathered_length.
  reflexivity.
Qed.

Lemma all_azimuths_length (interp_zeniths : list Q) :
  length (all_azimuths_of interp_zeniths) = 360 * 71.
Proof.
  unfold all_azimuths_of.
  rewrite flat_map_length_uniform with (n := 360).
  - now rewrite length_seq.
  - intros. apply sweep_length.
Qed.

Lemma nth_all_azimuths (interp_zeniths : list Q) (i k : nat) :
  i < 71 -> k < 360 ->
  nth (360 * i + k) (all_azimuths_of interp_zeniths) 0%Q =
  nth k (sweep interp_zeniths i) 0%Q.
Proof.
  intros Hi Hk. unfold all_azimuths_of.
  rewrite nth_flat_map_uniform with (n := 360) (a0 := 0).
  - now rewrite seq_nth.
  - intros. apply sweep_length.
  - exact Hk.
  - now rewrite length_seq.
Qed.

Lemma interpolate_ok (initial_values : list Q) :
  length initial_values = DATA_SIZE ->
  interpolate_sky_measures initial_values =
  Ok (all_azimuths_of (interp_zeniths_of initial_values)).
Proof.
  intros Hlen. unfold interpolate_sky_measures.
  rewrite zenith_pass_ok by exact Hlen. cbn [bind].
  apply azimuth_loop_ok, interp_zeniths_length.
Qed.

(** ** Grid assembly *)

Lemma append_wrap_length (a : list Q) :
  length a = 360 * 71 -> length (append_wrap a) = 361 * 71.
Proof.
  intros Hlen. unfold append_wrap.
  rewrite length_app, slice_length by lia. lia.
Qed.

Lemma reshaped_length (a : list Q) (rows cols : nat) :
  length (reshaped a rows cols) = rows.
Proof. unfold reshaped. now rewrite length_map, length_seq. Qed.

Lemma nth_reshaped (a : list Q) (rows cols r : nat) :
  r < rows ->
  nth r (reshaped a rows cols) [] =
  map (fun c => nth (r + rows * c) a 0%Q) (seq 0 cols).
Proof. intros Hr. unfold reshaped. now rewrite nth_map_seq. Qed.

Lemma update_length {A : Type} (l : list A) (i : nat) (v : A) :
  length (update l i v) = length l.
Proof.
  revert i. induction l as [|h t IH]; intros [|i]; cbn [update length];
    auto.
Qed.

Lemma nth_update_eq {A : Type} (l : list A) (i : nat) (v d : A) :
  i < length l -> nth i (update l i v) d = v.
Proof.
  revert i. induction l as [|h t IH]; intros [|i] Hi; cbn [length] in Hi;
    cbn [update nth]; try lia; auto.
  apply IH. lia.
Qed.

Lemma nth_update_neq {A : Type} (l : list A) (i j : nat) (v d : A) :
  i <> j -> nth j (update l i v) d = nth j l d.
Proof.
  revert i j. induction l as [|h t IH]; intros [|i] [|j] Hij;
    cbn [update nth]; try congruence; auto.
Qed.

Lemma setitem_ok {A : Type} (a : list A) (index : nat) (v : A) :
  index < length a -> setitem a index v = Ok (update a index v).
Proof.
  intros Hlt. unfold setitem.
  destruct (Nat.ltb_spec index (length a)); [reflexivity|lia].
Qed.

(** The grid a dense sequence of the right size is assembled into. *)
Lemma prepare_ok (a : list Q) :
  length a = 360 * 71 ->
  prepare_interp_measures a =
  Ok (np_radians AZIMUTH_RANGE,
      update (reshaped (append_wrap a) 361 71) 360
        (nth 0 (reshaped (append_wrap a) 361 71) [])).
Proof.
  intros Hlen. unfold prepare_interp_measures, reshape_F, np_radians.
  rewrite length_map, len_AZIMUTH_RANGE, len_ALL_ZENITH_VALUES_INV.
  rewrite (proj2 (Nat.eqb_eq _ _) (append_wrap_length a Hlen)).
  cbn [bind].
  rewrite (getitem_ok _ _ []) by (rewrite reshaped_length; lia).
  cbn [bind]. unfold last_index. rewrite reshaped_length.
  rewrite setitem_ok by (rewrite reshaped_length; lia).
  reflexivity.
Qed.

Lemma assembled_ok (initial_values : list Q) :
  length initial_values = DATA_SIZE ->
  assembled_grid initial_values =
  Ok (let a := append_wrap (all_azimuths_of (interp_zeniths_of initial_values)) in
      update (reshaped a 361 71) 360 (nth 0 (reshaped a 361 71) [])).
Proof.
  intros Hlen. unfold assembled_grid.
  rewrite interpolate_ok by exact Hlen. cbn [bind].
  rewrite prepare_ok by apply all_azimuths_length.
  reflexivity.
Qed.

Lemma Forall_update {A : Type} (P : A -> Prop) (l : list A) (i : nat) (v : A) :
  Forall P l -> P v -> Forall P (update l i v).
Proof.
  intros Hl Hv. revert i.
  induction Hl as [|h t Hh Ht IH]; intros [|i]; cbn [update]; auto.
Qed.

Lemma reshaped_rows (a : list Q) (rows cols : nat) :
  Forall (fun row => length row = cols) (reshaped a rows cols).
Proof.
  unfold reshaped. apply Forall_map, Forall_forall. intros r _.
  now rewrite length_map, length_seq.
Qed.

Lemma nth_reshaped_length (a : list Q) (rows cols r : nat) :
  r < rows -> length (nth r (reshaped a rows cols) []) = cols.
Proof.
  intros Hr. rewrite nth_reshaped by exact Hr.
  now rewrite length_map, length_seq.
Qed.

Lemma cell_reshaped (a : list Q) (rows cols r c : nat) :
  r < rows -> c < cols ->
  cell (reshaped a rows cols) r c = nth (r + rows * c) a 0%Q.
Proof.
  intros Hr Hc. unfold cell. rewrite nth_reshaped by exact Hr.
  now rewrite nth_map_seq.
Qed.

(** Below the last row the assembled grid is the reshaped sequence. *)
Lemma cell_assembled (a : list Q) (row : list Q) (r c : nat) :
  r < 360 -> c < 71 ->
  cell (update (reshaped a 361 71) 360 row) r c = nth (r + 361 * c) a 0%Q.
Proof.
  intros Hr Hc. unfold cell. rewrite nth_update_neq by lia.
  apply cell_reshaped; lia.
Qed.

(** ** The assembled grid of a valid record *)

Lemma assembled_shape (initial_values : list Q) :
  length initial_values = DATA_SIZE ->
  exists g,
    assembled_grid initial_values = Ok g /\
    length g = 361 /\
    Forall (fun row => length row = 71) g.
Proof.
  intros Hlen. eexists. split; [apply assembled_ok, Hlen|].
  cbv zeta. split.
  - now rewrite update_length, reshaped_length.
  - apply Forall_update; [apply reshaped_rows|].
    apply nth_reshaped_length. lia.
Qed.

(** C7. Shape invariant: for every record of [DATA_SIZE] values, whatever
    the values, the pipeline returns a grid with [len(AZIMUTH_RANGE)] = 361
    rows, each of [len(ALL_ZENITH_VALUES)] = 71 cells. *)
Theorem C7_grid_shape (initial_values : list Q) :
  length initial_values = DATA_SIZE ->
  exists g,
    assembled_grid initial_values = Ok g /\
    length g = length AZIMUTH_RANGE /\
    Forall (fun row => length row = length ALL_ZENITH_VALUES) g /\
    length AZIMUTH_RANGE = 361 /\
    length ALL_ZENITH_VALUES = 71.
Proof.
  intros Hlen.
  destruct (assembled_shape initial_values Hlen) as (g & Hg & Hrows & Hcols).
  exists g. rewrite len_AZIMUTH_RANGE, len_ALL_ZENITH_VALUES. auto.
Qed.

Lemma C7_grid_shape_witness :
  exists g,
    assembled_grid constant_record = Ok g /\
    length g = length AZIMUTH_RANGE /\
    Forall (fun row => length row = length ALL_ZENITH_VALUES) g /\
    length AZIMUTH_RANGE = 361 /\
    length ALL_ZENITH_VALUES = 71.
Proof. apply (C7_grid_shape constant_record). reflexivity. Defined.

(** C6. Seam closure: for every record of [DATA_SIZE] values the reshape
    succeeds, the returned grid is the reshaped array with its row -1
    replaced by a copy of its row 0, and so row 0 and row -1 of the
    returned grid are the same row, element for element. *)
Theorem C6_seam_closure (initial_values : list Q) :
  length initial_values = DATA_SIZE ->
  exists all_azimuths g0 g row,
    interpolate_sky_measures initial_values = Ok all_azimuths /\
    reshape_F (append_wrap all_azimuths)
      (length AZIMUTH_RANGE) (length ALL_ZENITH_VALUES_INV) = Ok g0 /\
    assembled_grid initial_values = Ok g /\
    nth_error g0 0 = Some row /\
    g = update g0 (last_index (length g0)) row /\
    nth_error g 0 = Some row /\
    nth_error g (last_index (length g)) = Some row.
Proof.
  intros Hlen.
  set (a := all_azimuths_of (interp_zeniths_of initial_values)).
  set (G := reshaped (append_wrap a) 361 71).
  assert (HG : length G = 361) by apply reshaped_length.
  exists a, G, (update G 360 (nth 0 G [])), (nth 0 G []).
  split; [apply interpolate_ok, Hlen|].
  split.
  { unfold reshape_F.
    rewrite len_AZIMUTH_RANGE, len_ALL_ZENITH_VALUES_INV.
    rewrite (proj2 (Nat.eqb_eq _ _)
               (append_wrap_length a (all_azimuths_length _))).
    reflexivity. }
  split; [apply assembled_ok, Hlen|].
  rewrite update_length, HG. unfold last_index. change (361 - 1) with 360.
  split; [apply nth_error_nth'; lia|].
  split; [reflexivity|].
  split.
  - rewrite (nth_error_nth' _ []) by (rewrite update_length; lia).
    now rewrite nth_update_neq by lia.
  - rewrite (nth_error_nth' _ []) by (rewrite update_length; lia).
    now rewrite nth_update_eq by lia.
Qed.

Lemma C6_seam_closure_witness :
  exists all_azimuths g0 g row,
    interpolate_sky_measures spike_record = Ok all_azimuths /\
    reshape_F (append_wrap all_azimuths)
      (length AZIMUTH_RANGE) (length ALL_ZENITH_VALUES_INV) = Ok g0 /\
    assembled_grid spike_record = Ok g /\
    nth_error g0 0 = Some row /\
    g = update g0 (last_index (length g0)) row /\
    nth_error g 0 = Some row /\
    nth_error g (last_index (length g)) = Some row.
Proof. apply (C6_seam_closure spike_record). reflexivity. Defined.

(** Where the reshape puts the sweeps: column [z] starts [z] places late. *)
Lemma cell_rotated (initial_values : list Q) (a z : nat) :
  length initial_values = DATA_SIZE ->
  z <= 70 ->
  a + z <= 359 ->
  exists g,
    assembled_grid initial_values = Ok g /\
    cell g a z =
    nth (a + z)
      (azimuth_profile (gathered (interp_zeniths_of initial_values) z)) 0%Q.
Proof.
  intros Hlen Hz Haz.
  eexists. split; [apply assembled_ok, Hlen|].
  cbv zeta. rewrite cell_assembled by lia.
  unfold append_wrap. rewrite app_nth1 by (rewrite all_azimuths_length; lia).
  replace (a + 361 * z) with (360 * z + (a + z)) by lia.
  rewrite nth_all_azimuths by lia.
  unfold sweep. apply nth_removelast.
  rewrite azimuth_profile_length. lia.
Qed.

(** C5. Column rotation: for every record of [DATA_SIZE] values, every
    dense azimuth index [a] and dense zenith index [z <= 70] with
    [a + z <= 359], the cell [grid[a][z]] of the assembled grid holds the
    value that the azimuth pass interpolated for dense azimuth [a + z] at
    zenith index [z]: the sweeps are 360 long and the columns 361. *)
Theorem C5_column_rotation (initial_values : list Q) (a z : nat) :
  length initial_values = DATA_SIZE ->
  z <= 70 ->
  a + z <= 359 ->
  exists interp_zeniths values_at_zenith int g,
    zenith_loop initial_values 0 [] = Ok interp_zeniths /\
    gather_at_zenith interp_zeniths z = Ok values_at_zenith /\
    np_interp AZIMUTH_RANGE AZIMUTHS values_at_zenith = Ok int /\
    assembled_grid initial_values = Ok g /\
    cell g a z = nth (a + z) int 0%Q.
Proof.
  intros Hlen Hz Haz.
  destruct (cell_rotated initial_values a z Hlen Hz Haz) as (g & Hg & Hcell).
  exists (interp_zeniths_of initial_values).
  exists (gathered (interp_zeniths_of initial_values) z).
  exists (azimuth_profile (gathered (interp_zeniths_of initial_values) z)).
  exists g.
  split; [apply zenith_pass_ok, Hlen|].
  split; [apply gather_ok; rewrite interp_zeniths_length; lia|].
  split; [apply np_interp_ok; [discriminate|apply gathered_length]|].
  split; assumption.
Qed.

Lemma C5_column_rotation_witness :
  exists interp_zeniths values_at_zenith int g,
    zenith_loop spike_record 0 [] = Ok interp_zeniths /\
    gather_at_zenith interp_zeniths 20 = Ok values_at_zenith /\
    np_interp AZIMUTH_RANGE AZIMUTHS values_at_zenith = Ok int /\
    assembled_grid spike_record = Ok g /\
    cell g 30 20 = nth (30 + 20) int 0%Q.
Proof.
  apply (C5_column_rotation spike_record 30 20); [reflexivity|lia|lia].
Defined.

(** ** The colour-range cells of plot_polar *)

Lemma setcell_ok (g : grid) (r c : nat) (v : Q) :
  r < length g -> c < length (nth r g []) ->
  setcell g r c v = Ok (update g r (update (nth r g []) c v)).
Proof.
  intros Hr Hc. unfold setcell.
  rewrite (getitem_ok _ _ []) by exact Hr. cbn [bind].
  rewrite setitem_ok by exact Hc. cbn [bind].
  now rewrite setitem_ok by exact Hr.
Qed.

Lemma cell_setcell (g : grid) (r c : nat) (v : Q) (r' c' : nat) :
  r < length g -> c < length (nth r g []) ->
  cell (update g r (update (nth r g []) c v)) r' c' =
  if ((r' =? r) && (c' =? c))%bool then v else cell g r' c'.
Proof.
  intros Hr Hc. unfold cell.
  destruct (Nat.eqb_spec r' r) as [->|Hne]; cbn [andb].
  - rewrite nth_update_eq by exact Hr.
    destruct (Nat.eqb_spec c' c) as [->|Hne].
    + now rewrite nth_update_eq.
    + now rewrite nth_update_neq by congruence.
  - now rewrite nth_update_neq by congruence.
Qed.

Lemma set_color_range_ok (g : grid) :
  length g = 361 ->
  Forall (fun row => length row = 71) g ->
  exists g',
    set_color_range g = Ok g' /\
    length g' = 361 /\
    Forall (fun row => length row = 71) g' /\
    forall r c,
      cell g' r c =
      if ((r =? 360) && (c =? 70))%bool then DARKER_VALUE
      else if ((r =? 0) && (c =? 0))%bool then LIGHTEST_VALUE
           else cell g r c.
Proof.
  intros Hlen Hrows.
  assert (Hrow : forall h : grid, length h = 361 ->
            Forall (fun row => length row = 71) h ->
            forall r, r < 361 -> length (nth r h []) = 71).
  { intros h Hh Hall r Hr.
    apply (proj1 (Forall_nth _ h) Hall). lia. }
  set (g1 := update g 0 (update (nth 0 g []) 0 LIGHTEST_VALUE)).
  assert (Hlen1 : length g1 = 361) by (unfold g1; now rewrite update_length).
  assert (Hrows1 : Forall (fun row => length row = 71) g1).
  { apply Forall_update; [exact Hrows|].
    rewrite update_length. apply Hrow; [exact Hlen|exact Hrows|lia]. }
  exists (update g1 360 (update (nth 360 g1 []) 70 DARKER_VALUE)).
  split; [|split; [|split]].
  - unfold set_color_range.
    rewrite setcell_ok by (rewrite ?Hrow; auto; lia). cbn [bind].
    fold g1. rewrite Hlen1. unfold last_index.
    change (361 - 1) with 360. rewrite (Hrow g1) by (auto; lia).
    change (71 - 1) with 70.
    apply setcell_ok; rewrite ?Hrow; auto; lia.
  - now rewrite update_length.
  - apply Forall_update; [exact Hrows1|].
    rewrite update_length. apply Hrow; auto; lia.
  - intros r c.
    rewrite cell_setcell by (rewrite ?Hrow; auto; lia).
    destruct ((r =? 360) && (c =? 70))%bool; [reflexivity|].
    unfold g1. apply cell_setcell; rewrite ?Hrow; auto; lia.
Qed.

Lemma plot_polar_ok (title : string) (initial_values : list Q) (flag : bool) :
  length initial_values = DATA_SIZE ->
  exists az g g',
    assembled_grid initial_values = Ok g /\
    set_color_range g = Ok g' /\
    plot_polar title initial_values flag =
    Ok (Figure (title_processed title) az g (if flag then g else g')).
Proof.
  intros Hlen.
  destruct (assembled_shape initial_values Hlen) as (g & Hg & Hlg & Hrows).
  destruct (set_color_range_ok g Hlg Hrows) as (g' & Hset & _).
  unfold assembled_grid in *. unfold plot_polar.
  destruct (interpolate_sky_measures initial_values) as [flat|]; [|discriminate].
  cbn [bind] in *.
  destruct (prepare_interp_measures flat) as [[az h]|]; [|discriminate].
  cbn [bind snd] in *. injection Hg as ->.
  exists az, g, g'. split; [reflexivity|]. split; [exact Hset|].
  destruct flag; cbn [negb bind]; [reflexivity|].
  rewrite Hset. reflexivity.
Qed.

(** C10. For every record of [DATA_SIZE] values: with the flag unset,
    the array given to [contourf] is the assembled grid with [grid[0][0]]
    set to [LIGHTEST_VALUE] (19.0) and [grid[-1][-1]], the cell (360, 70),
    set to [DARKER_VALUE] (22.0), every other cell as assembled; the array
    given to [contour] before that is the assembled grid; with the flag
    set, [contourf] gets the assembled grid itself. *)
Theorem C10_color_range_corners (title : string) (initial_values : list Q) :
  length initial_values = DATA_SIZE ->
  exists g fixed own,
    assembled_grid initial_values = Ok g /\
    plot_polar title initial_values false = Ok fixed /\
    plot_polar title initial_values true = Ok own /\
    fig_contour fixed = g /\
    cell (fig_contourf fixed) 0 0 = LIGHTEST_VALUE /\
    cell (fig_contourf fixed)
      (last_index (length g)) (last_index (length ALL_ZENITH_VALUES)) =
      DARKER_VALUE /\
    (forall r c,
        (r, c) <> (0, 0) ->
        (r, c) <> (last_index (length g),
                   last_index (length ALL_ZENITH_VALUES)) ->
        cell (fig_contourf fixed) r c = cell g r c) /\
    length (fig_contourf fixed) = length g /\
    Forall (fun row => length row = length ALL_ZENITH_VALUES)
      (fig_contourf fixed) /\
    fig_contourf own = g /\
    LIGHTEST_VALUE = 19%Q /\ DARKER_VALUE = 22%Q.
Proof.
  intros Hlen.
  destruct (assembled_shape initial_values Hlen) as (g & Hg & Hlg & Hrows).
  destruct (set_color_range_ok g Hlg Hrows)
    as (g' & Hset & Hlg' & Hrows' & Hcell).
  destruct (plot_polar_ok title initial_values false Hlen)
    as (az & h & h' & Hh & Hseth & Hfixed).
  destruct (plot_polar_ok title initial_values true Hlen)
    as (az' & k & k' & Hk & _ & Hown).
  assert (h = g) by congruence. subst h.
  assert (k = g) by congruence. subst k.
  assert (h' = g') by congruence. subst h'.
  exists g, (Figure (title_processed title) az g g'),
    (Figure (title_processed title) az' g g).
  rewrite Hlg, len_ALL_ZENITH_VALUES. unfold last_index.
  change (361 - 1) with 360. change (71 - 1) with 70.
  cbn [fig_contour fig_contourf].
  split; [exact Hg|].
  split; [exact Hfixed|].
  split; [exact Hown|].
  split; [reflexivity|].
  split; [now rewrite Hcell|].
  split; [now rewrite Hcell|].
  split.
  { intros r c H0 H1. rewrite Hcell.
    destruct (Nat.eqb_spec r 360); destruct (Nat.eqb_spec c 70);
      destruct (Nat.eqb_spec r 0); destruct (Nat.eqb_spec c 0);
      cbn [andb]; congruence. }
  repeat split; auto.
Qed.

Lemma C10_color_range_corners_witness :
  exists g fixed own,
    assembled_grid constant_record = Ok g /\
    plot_polar "Site A" constant_record false = Ok fixed /\
    plot_polar "Site A" constant_record true = Ok own /\
    fig_contour fixed = g /\
    cell (fig_contourf fixed) 0 0 = LIGHTEST_VALUE /\
    cell (fig_contourf fixed)
      (last_index (length g)) (last_index (length ALL_ZENITH_VALUES)) =
      DARKER_VALUE /\
    (forall r c,
        (r, c) <> (0, 0) ->
        (r, c) <> (last_index (length g),
                   last_index (length ALL_ZENITH_VALUES)) ->
        cell (fig_contourf fixed) r c = cell g r c) /\
    length (fig_contourf fixed) = length g /\
    Forall (fun row => length row = length ALL_ZENITH_VALUES)
      (fig_contourf fixed) /\
    fig_contourf own = g /\
    LIGHTEST_VALUE = 19%Q /\ DARKER_VALUE = 22%Q.
Proof.
  apply (C10_color_range_corners "Site A" constant_record). reflexivity.
Defined.

(** ** Exactness at the sampled angles *)

(** C1. The claim fails on the code. For the record that is 1 at azimuth
    30 degrees and 0 elsewhere, the azimuth pass does interpolate 1 for
    dense azimuth 30 at zenith index 20 (zenith 40 degrees), yet the cell
    of the returned grid at dense azimuth index 30 and dense zenith index
    20 is 1/3, the value interpolated for azimuth 50 degrees, while the
    record's measure for (30, 40) is 1. *)
Theorem C1_samples_not_exact :
  exists g int,
    assembled_grid spike_record = Ok g /\
    dense_azimuth_index (nth 1 AZIMUTHS 0%Z) = 30 /\
    dense_zenith_index (nth 1 ZENITHS 0%Z) = 20 /\
    measure spike_record 1 1 = 1%Q /\
    np_interp AZIMUTH_RANGE AZIMUTHS
      (gathered (interp_zeniths_of spike_record) 20) = Ok int /\
    (nth 30 int 0 == 1)%Q /\
    (nth 50 int 0 == 1 # 3)%Q /\
    (cell g 30 20 == 1 # 3)%Q /\
    ~ exact_at_samples spike_record g.
Proof.
  destruct (cell_rotated spike_record 30 20) as (g & Hg & Hcell);
    [reflexivity|lia|lia|].
  exists g.
  exists (azimuth_profile (gathered (interp_zeniths_of spike_record) 20)).
  split; [exact Hg|].
  do 3 (split; [reflexivity|]).
  split; [apply np_interp_ok; [discriminate|apply gathered_length]|].
  split; [vm_compute; reflexivity|].
  split; [vm_compute; reflexivity|].
  assert (Hthird : (cell g 30 20 == 1 # 3)%Q).
  { rewrite Hcell. vm_compute. reflexivity. }
  split; [exact Hthird|].
  intros Hexact.
  assert (H := Hexact 1 1).
  change (dense_azimuth_index (nth 1 AZIMUTHS 0%Z)) with 30 in H.
  change (dense_zenith_index (nth 1 ZENITHS 0%Z)) with 20 in H.
  change (measure spike_record 1 1) with 1%Q in H.
  rewrite Hthird in H.
  assert (Habs : (1 # 3 == 1)%Q)
    by (apply H; vm_compute; lia).
  vm_compute in Habs. discriminate.
Qed.

(** ** Assembly step 1 *)

(** C2, as worded, fails on the spike record: 71 values are appended, not
    70; with 70 the reshape would raise; and the appended values are not
    the zenith profile of azimuth 0 (the 31st of them is 1, that profile
    is 0 throughout). *)
Lemma C2_wrap_counterexample :
  exists all_azimuths,
    interpolate_sky_measures spike_record = Ok all_azimuths /\
    ~ wrap_as_specified all_azimuths /\
    length (append_wrap all_azimuths) = length all_azimuths + 71 /\
    reshape_F (all_azimuths ++ slice all_azimuths 0 70) 361 71 =
      Raise ValueError /\
    (nth 30 (slice all_azimuths 0 71) 0 == 1)%Q /\
    (nth 30 (zenith_profile_at all_azimuths 0) 0 == 0)%Q.
Proof.
  exists (all_azimuths_of (interp_zeniths_of spike_record)).
  pose proof (all_azimuths_length (interp_zeniths_of spike_record)) as Hlen.
  split; [apply interpolate_ok; reflexivity|].
  split.
  { intros (Happ & _). apply (f_equal (@length Q)) in Happ.
    rewrite append_wrap_length in Happ by exact Hlen.
    rewrite length_app, slice_length in Happ
      by (rewrite len_ALL_ZENITH_VALUES; lia).
    rewrite len_ALL_ZENITH_VALUES in Happ. lia. }
  split.
  { rewrite append_wrap_length by exact Hlen. lia. }
  split.
  { unfold reshape_F.
    destruct (Nat.eqb_spec
                (length (all_azimuths_of (interp_zeniths_of spike_record)
                         ++ slice (all_azimuths_of
                                     (interp_zeniths_of spike_record)) 0 70))
                (361 * 71)) as [Heq|]; [|reflexivity].
    rewrite length_app, slice_length in Heq by lia. lia. }
  split; vm_compute; reflexivity.
Qed.

(** C2, amended. For every record of [DATA_SIZE] values the assembler's
    first step appends to the zenith-major dense sequence a copy of
    exactly its first [len(ALL_ZENITH_VALUES)] = 71 elements, and the
    reshape into [(len(AZIMUTH_RANGE), len(ALL_ZENITH_VALUES))] then
    succeeds. *)
Theorem C2_wrap_append (initial_values : list Q) :
  length initial_values = DATA_SIZE ->
  exists all_azimuths g,
    interpolate_sky_measures initial_values = Ok all_azimuths /\
    append_wrap all_azimuths =
      all_azimuths ++ firstn (length ALL_ZENITH_VALUES) all_azimuths /\
    length (firstn (length ALL_ZENITH_VALUES) all_azimuths) = 71 /\
    reshape_F (append_wrap all_azimuths)
      (length AZIMUTH_RANGE) (length ALL_ZENITH_VALUES) = Ok g.
Proof.
  intros Hlen.
  exists (all_azimuths_of (interp_zeniths_of initial_values)).
  pose proof (all_azimuths_length (interp_zeniths_of initial_values)) as Hall.
  eexists.
  split; [apply interpolate_ok, Hlen|].
  split; [reflexivity|].
  split.
  { rewrite length_firstn, len_ALL_ZENITH_VALUES. lia. }
  unfold reshape_F.
  rewrite len_AZIMUTH_RANGE, len_ALL_ZENITH_VALUES.
  rewrite (proj2 (Nat.eqb_eq _ _) (append_wrap_length _ Hall)).
  reflexivity.
Qed.

Lemma C2_wrap_append_witness :
  exists all_azimuths g,
    interpolate_sky_measures constant_record = Ok all_azimuths /\
    append_wrap all_azimuths =
      all_azimuths ++ firstn (length ALL_ZENITH_VALUES) all_azimuths /\
    length (firstn (length ALL_ZENITH_VALUES) all_azimuths) = 71 /\
    reshape_F (append_wrap all_azimuths)
      (length AZIMUTH_RANGE) (length ALL_ZENITH_VALUES) = Ok g.
Proof. apply (C2_wrap_append constant_record). reflexivity. Defined.

(** ** The azimuth profile *)

Lemma last_map {A B : Type} (f : A -> B) (l : list A) (d : A) (d' : B) :
  l <> [] -> last (map f l) d' = f (last l d).
Proof.
  induction l as [|a [|b l] IH]; intros Hne; [congruence|reflexivity|].
  change (last (map f (b :: l)) d' = f (last (b :: l) d)).
  apply IH. discriminate.
Qed.

(** At the last sample point the interpolation returns the last value. *)
Lemma azimuth_profile_last (values_at_zenith : list Q) :
  length values_at_zenith = 13 ->
  last (azimuth_profile values_at_zenith) 0%Q = nth 12 values_at_zenith 0%Q.
Proof.
  intros Hlen. unfold azimuth_profile.
  rewrite (last_map
             (fun q => interp1 (map inject_Z AZIMUTHS) values_at_zenith
                         (inject_Z q)) _ 0%Z) by discriminate.
  do 14 (destruct values_at_zenith as [|? values_at_zenith];
         try discriminate Hlen).
  reflexivity.
Qed.

(** At the first sample point it returns the first value, as a rational. *)
Lemma azimuth_profile_first (values_at_zenith : list Q) :
  length values_at_zenith = 13 ->
  (nth 0 (azimuth_profile values_at_zenith) 0 == nth 0 values_at_zenith 0)%Q.
Proof.
  intros Hlen.
  destruct values_at_zenith as [|y0 rest]; [discriminate Hlen|].
  destruct rest as [|y1 rest]; [discriminate Hlen|].
  change (nth 0 (azimuth_profile (y0 :: y1 :: rest)) 0%Q)
    with ((y1 - y0) / (inject_Z 30 - inject_Z 0)
          * (inject_Z 0 - inject_Z 0) + y0)%Q.
  cbn [nth].
  generalize ((y1 - y0) / (inject_Z 30 - inject_Z 0))%Q. intros s. ring.
Qed.

(** C3, as worded, fails on the record whose block for 360 degrees is 1
    and whose other blocks are 0: at zenith index 0 the loop gathers
    thirteen values, the last one from the thirteenth block, and the
    dropped output value is not the output at azimuth 0. *)
Lemma C3_profile_counterexample :
  exists interp_zeniths values_at_zenith int,
    zenith_loop open_record 0 [] = Ok interp_zeniths /\
    ~ profile_as_specified interp_zeniths 0 /\
    gather_at_zenith interp_zeniths 0 = Ok values_at_zenith /\
    length values_at_zenith = 13 /\
    np_interp AZIMUTH_RANGE AZIMUTHS values_at_zenith = Ok int /\
    (last int 0 == 1)%Q /\
    (nth 0 int 0 == 0)%Q.
Proof.
  exists (interp_zeniths_of open_record).
  exists (gathered (interp_zeniths_of open_record) 0).
  exists (azimuth_profile (gathered (interp_zeniths_of open_record) 0)).
  assert (Hgather : gather_at_zenith (interp_zeniths_of open_record) 0 =
                    Ok (gathered (interp_zeniths_of open_record) 0)).
  { apply gather_ok. rewrite interp_zeniths_length. lia. }
  split; [apply zenith_pass_ok; reflexivity|].
  split.
  { intros (profile & int & Hlen & _ & Hg & _).
    rewrite Hgather in Hg. injection Hg as Hg.
    change (length AZIMUTHS - 1) with 12 in Hlen.
    assert (H12 : nth 12 (gathered (interp_zeniths_of open_record) 0) 0%Q =
                  nth 0 (gathered (interp_zeniths_of open_record) 0) 0%Q).
    { rewrite Hg. rewrite app_nth2 by lia. rewrite Hlen.
      rewrite app_nth1 by lia.
      destruct profile; [discriminate Hlen|reflexivity]. }
    vm_compute in H12. discriminate. }
  split; [exact Hgather|].
  split; [apply gathered_length|].
  split; [apply np_interp_ok; [discriminate|apply gathered_length]|].
  split.
  - rewrite azimuth_profile_last by apply gathered_length.
    vm_compute. reflexivity.
  - rewrite azimuth_profile_first by apply gathered_length.
    vm_compute. reflexivity.
Qed.

(** C3, amended. For every record of [DATA_SIZE] values and every dense
    zenith index [z], the azimuth pass gathers the value at offset [z] of
    each of the [N_a] = 13 blocks of the interpolated zenith sequence and
    appends nothing; the interpolated output starts at the value gathered
    from the first block, and the last output value, which is dropped, is
    the value gathered from the thirteenth block, so that it duplicates the
    output at azimuth 0 whenever those two gathered values are equal. *)
Theorem C3_gathers_all_blocks (initial_values : list Q) (z : nat) :
  length initial_values = DATA_SIZE ->
  z < length ALL_ZENITH_VALUES ->
  exists interp_zeniths values_at_zenith int,
    zenith_loop initial_values 0 [] = Ok interp_zeniths /\
    gather_at_zenith interp_zeniths z = Ok values_at_zenith /\
    length values_at_zenith = length AZIMUTHS /\
    length AZIMUTHS = 13 /\
    (forall j, j < length AZIMUTHS ->
       nth j values_at_zenith 0%Q =
       nth (z + length ALL_ZENITH_VALUES * j) interp_zeniths 0%Q /\
       nth j values_at_zenith 0%Q =
       nth z (zenith_profile (block initial_values j)) 0%Q) /\
    np_interp AZIMUTH_RANGE AZIMUTHS values_at_zenith = Ok int /\
    azimuth_sweep values_at_zenith = Ok (removelast int) /\
    last int 0%Q = nth 12 values_at_zenith 0%Q /\
    (nth 0 int 0 == nth 0 values_at_zenith 0)%Q /\
    ((nth 12 values_at_zenith 0 == nth 0 values_at_zenith 0)%Q ->
     (last int 0 == nth 0 int 0)%Q).
Proof.
  intros Hlen Hz. rewrite len_ALL_ZENITH_VALUES in Hz.
  set (iz := interp_zeniths_of initial_values).
  exists iz, (gathered iz z), (azimuth_profile (gathered iz z)).
  pose proof (gathered_length iz z) as Hg.
  split; [apply zenith_pass_ok, Hlen|].
  split; [apply gather_ok; unfold iz; rewrite interp_zeniths_length; lia|].
  split; [exact Hg|].
  split; [reflexivity|].
  split.
  { intros j Hj. rewrite len_AZIMUTHS in Hj.
    rewrite nth_gathered by exact Hj. rewrite len_ALL_ZENITH_VALUES.
    split; [reflexivity|]. now apply nth_interp_zeniths. }
  split; [apply np_interp_ok; [discriminate|exact Hg]|].
  split; [apply azimuth_sweep_ok, Hg|].
  split; [apply azimuth_profile_last, Hg|].
  split; [apply azimuth_profile_first, Hg|].
  intros Heq. rewrite azimuth_profile_last by exact Hg.
  rewrite azimuth_profile_first by exact Hg. exact Heq.
Qed.

Lemma C3_gathers_all_blocks_witness :
  exists interp_zeniths values_at_zenith int,
    zenith_loop open_record 0 [] = Ok interp_zeniths /\
    gather_at_zenith interp_zeniths 7 = Ok values_at_zenith /\
    length values_at_zenith = length AZIMUTHS /\
    length AZIMUTHS = 13 /\
    (forall j, j < length AZIMUTHS ->
       nth j values_at_zenith 0%Q =
       nth (7 + length ALL_ZENITH_VALUES * j) interp_zeniths 0%Q /\
       nth j values_at_zenith 0%Q =
       nth 7 (zenith_profile (block open_record j)) 0%Q) /\
    np_interp AZIMUTH_RANGE AZIMUTHS values_at_zenith = Ok int /\
    azimuth_sweep values_at_zenith = Ok (removelast int) /\
    last int 0%Q = nth 12 values_at_zenith 0%Q /\
    (nth 0 int 0 == nth 0 values_at_zenith 0)%Q /\
    ((nth 12 values_at_zenith 0 == nth 0 values_at_zenith 0)%Q ->
     (last int 0 == nth 0 int 0)%Q).
Proof.
  apply (C3_gathers_all_blocks open_record 7);
    [reflexivity | vm_compute; lia].
Defined.

(** ** The zenith pass and the pipeline as a whole *)

Lemma blocks_partition (k : nat) :
  forall l : list Q,
  length l = 5 * k ->
  l = flat_map (fun b => firstn 5 (skipn (5 * b) l)) (seq 0 k).
Proof.
  induction k as [|k IH]; intros l Hlen.
  - destruct l; [reflexivity|discriminate Hlen].
  - cbn [seq flat_map]. rewrite flat_map_seq_shift.
    rewrite <- (firstn_skipn 5 l) at 1.
    change (skipn (5 * 0) l) with l. f_equal.
    rewrite (IH (skipn 5 l)) at 1 by (rewrite length_skipn; lia).
    apply flat_map_ext. intros b.
    rewrite skipn_skipn. do 2 f_equal. lia.
Qed.

Lemma block_spec (initial_values : list Q) (k : nat) :
  block initial_values k = firstn 5 (skipn (5 * k) initial_values).
Proof.
  unfold block, slice. change (length ZENITHS) with 5.
  f_equal. lia.
Qed.

(** C4, as worded, fails: a sequence of [(N_a - 1) * N_z] = 60 values
    passes the zenith pass with 852 values and then the azimuth pass
    raises IndexError; and the 65 values that ingestion enforces give
    923 values, not 852. *)
Lemma C4_pipeline_counterexample :
  length short_record = (length AZIMUTHS - 1) * length ZENITHS /\
  ~ pipeline_as_specified short_record /\
  (exists interp_zeniths,
      zenith_loop short_record 0 [] = Ok interp_zeniths /\
      length interp_zeniths = 852) /\
  interpolate_sky_measures short_record = Raise IndexError /\
  (exists interp_zeniths,
      zenith_loop constant_record 0 [] = Ok interp_zeniths /\
      length interp_zeniths <> 852).
Proof.
  split; [reflexivity|].
  split.
  { intros H. destruct (H eq_refl) as (_ & g & Hg).
    vm_compute in Hg. discriminate. }
  split.
  { eexists. split.
    - apply (zenith_loop_blocks 12). reflexivity.
    - rewrite app_nil_l. rewrite flat_map_length_uniform with (n := 71).
      + reflexivity.
      + intros. apply zenith_profile_length. }
  split; [vm_compute; reflexivity|].
  exists (interp_zeniths_of constant_record).
  split; [apply zenith_pass_ok; reflexivity|].
  rewrite interp_zeniths_length. lia.
Qed.

(** C4, amended. For every sequence of [N_a * N_z] = 65 values, the size
    that ingestion enforces, the zenith pass cuts it into [N_a] = 13
    contiguous blocks of [N_z] = 5 values, interpolates each block onto
    [ALL_ZENITH_VALUES] and returns the [13 * 71] = 923 values in block
    order, and [plot_polar] goes through without raising, whatever the
    flag. *)
Theorem C4_zenith_pass_total (title : string) (initial_values : list Q)
  (flag : bool) :
  length initial_values = DATA_SIZE ->
  DATA_SIZE = length AZIMUTHS * length ZENITHS /\
  initial_values =
    flat_map (block initial_values) (seq 0 (length AZIMUTHS)) /\
  (forall k, k < length AZIMUTHS ->
     length (block initial_values k) = length ZENITHS /\
     np_interp ALL_ZENITH_VALUES ZENITHS (block initial_values k) =
       Ok (zenith_profile (block initial_values k))) /\
  zenith_loop initial_values 0 [] =
    Ok (flat_map (fun k => zenith_profile (block initial_values k))
          (seq 0 (length AZIMUTHS))) /\
  length (flat_map (fun k => zenith_profile (block initial_values k))
            (seq 0 (length AZIMUTHS))) =
    length AZIMUTHS * length ALL_ZENITH_VALUES /\
  length AZIMUTHS * length ALL_ZENITH_VALUES = 923 /\
  exists fig, plot_polar title initial_values flag = Ok fig.
Proof.
  intros Hlen.
  assert (Hblock : forall k, k < 13 -> length (block initial_values k) = 5).
  { intros k Hk. unfold block. change (length ZENITHS) with 5.
    rewrite slice_length; [lia|].
    rewrite Hlen. change DATA_SIZE with 65. lia. }
  split; [reflexivity|].
  split.
  { rewrite (flat_map_ext _ _ (block_spec initial_values)).
    apply (blocks_partition 13), Hlen. }
  split.
  { intros k Hk. split; [apply Hblock, Hk|].
    apply np_interp_ok; [discriminate|apply Hblock, Hk]. }
  split; [apply zenith_pass_ok, Hlen|].
  split; [apply interp_zeniths_length|].
  split; [reflexivity|].
  destruct (plot_polar_ok title initial_values flag Hlen)
    as (az & g & g' & _ & _ & Hfig).
  eexists. exact Hfig.
Qed.

Lemma C4_zenith_pass_total_witness :
  DATA_SIZE = length AZIMUTHS * length ZENITHS /\
  constant_record =
    flat_map (block constant_record) (seq 0 (length AZIMUTHS)) /\
  (forall k, k < length AZIMUTHS ->
     length (block constant_record k) = length ZENITHS /\
     np_interp ALL_ZENITH_VALUES ZENITHS (block constant_record k) =
       Ok (zenith_profile (block constant_record k))) /\
  zenith_loop constant_record 0 [] =
    Ok (flat_map (fun k => zenith_profile (block constant_record k))
          (seq 0 (length AZIMUTHS))) /\
  length (flat_map (fun k => zenith_profile (block constant_record k))
            (seq 0 (length AZIMUTHS))) =
    length AZIMUTHS * length ALL_ZENITH_VALUES /\
  length AZIMUTHS * length ALL_ZENITH_VALUES = 923 /\
  exists fig, plot_polar "Site A" constant_record false = Ok fig.
Proof.
  apply (C4_zenith_pass_total "Site A" constant_record false). reflexivity.
Defined.

(** ** Ingestion *)

(** The rest of a logged loop, named: it returned, or the run is absurd. *)
Ltac step_loop H w s Hrest :=
  match type of H with
  | (let (_, _) := ?run in _) = _ =>
      let e := fresh "e" in
      destruct run as [w [s|e]] eqn:Hrest; [|discriminate H]
  end.

Section IngestionFacts.

Variable float : string -> result Q.

Lemma comprehension_length {A B : Type} (f : A -> result B) (l : list A)
  (bs : list B) :
  comprehension f l = Ok bs -> length bs = length l.
Proof.
  revert bs. induction l as [|a l IH]; intros bs H; cbn [comprehension] in H.
  - now injection H as <-.
  - destruct (f a) as [b|e]; [|discriminate]. cbn [bind] in H.
    destruct (comprehension f l) as [bs'|e]; [|discriminate].
    cbn [bind] in H. injection H as <-. cbn [length]. f_equal. now apply IH.
Qed.

Lemma comprehension_raises {A B : Type} (f : A -> result B) (l : list A)
  (a : A) (e : exn) :
  In a l -> f a = Raise e -> exists e', comprehension f l = Raise e'.
Proof.
  intros Hin Ha. induction l as [|b l IH]; [contradiction|].
  cbn [comprehension]. destruct Hin as [->|Hin].
  - rewrite Ha. now exists e.
  - destruct (f b) as [v|e0]; [|now exists e0]. cbn [bind].
    destruct (IH Hin) as (e' & ->). now exists e'.
Qed.

Lemma forallb_isinstance_float (l : list Q) :
  forallb isinstance_float l = true.
Proof. induction l; cbn [forallb isinstance_float andb]; auto. Qed.

(** With a data line of [DATA_SIZE] entries the outcome is that of the
    conversions: the record, or the exception [float] raised. *)
Lemma data_is_valid_sized (data_read : list string) :
  entry_count data_read = Some DATA_SIZE ->
  exists title data_line,
    nth_error data_read DATA_FILE_ITEM_WITH_TITLE = Some title /\
    nth_error data_read DATA_FILE_ITEM_WITH_DATA = Some data_line /\
    data_is_valid float data_read =
    match comprehension float (split DATA_SEPARATOR data_line) with
    | Ok data_numbers => ([], Ok (Some (title, data_numbers)))
    | Raise e => ([], Raise e)
    end.
Proof.
  unfold entry_count, data_is_valid. intros Hcount.
  destruct data_read as [|title [|data_line rest]]; try discriminate Hcount.
  cbn [nth_error option_map] in Hcount. injection Hcount as Hcount.
  exists title, data_line. split; [reflexivity|]. split; [reflexivity|].
  cbn [length DATA_FILE_MIN_LINES Nat.leb getitem nth_error lift lbind
       DATA_FILE_ITEM_WITH_DATA DATA_FILE_ITEM_WITH_TITLE].
  rewrite Hcount, Nat.eqb_refl.
  destruct (comprehension float (split DATA_SEPARATOR data_line))
    as [data_numbers|e]; cbn [lift lbind]; [|reflexivity].
  rewrite forallb_isinstance_float. reflexivity.
Qed.

(** With any other entry count, or no data line, the file is refused with
    one warning. *)
Lemma data_is_valid_rejects (data_read : list string) :
  entry_count data_read <> Some DATA_SIZE ->
  exists msg, data_is_valid float data_read = ([msg], Ok None).
Proof.
  unfold entry_count, data_is_valid. intros Hcount.
  destruct data_read as [|title [|data_line rest]];
    try (eexists; reflexivity).
  cbn [nth_error option_map DATA_FILE_ITEM_WITH_DATA] in Hcount.
  cbn [length DATA_FILE_MIN_LINES Nat.leb getitem nth_error lift lbind
       DATA_FILE_ITEM_WITH_DATA].
  destruct (Nat.eqb_spec (length (split DATA_SEPARATOR data_line)) DATA_SIZE)
    as [Heq|Hne]; [congruence|].
  eexists. reflexivity.
Qed.

Lemma data_is_valid_accepts (data_read : list string) (w : list string)
  (item : string * list Q) :
  data_is_valid float data_read = (w, Ok (Some item)) ->
  entry_count data_read = Some DATA_SIZE /\ length (snd item) = DATA_SIZE.
Proof.
  intros Hvalid.
  assert (Hcount : entry_count data_read = Some DATA_SIZE).
  { destruct (entry_count data_read) as [n|] eqn:E.
    - destruct (Nat.eq_dec n DATA_SIZE) as [->|Hne]; [reflexivity|].
      destruct (data_is_valid_rejects data_read) as (msg & Hrej);
        [rewrite E; congruence|congruence].
    - destruct (data_is_valid_rejects data_read) as (msg & Hrej);
        [rewrite E; congruence|congruence]. }
  split; [exact Hcount|].
  destruct (data_is_valid_sized data_read Hcount)
    as (title & data_line & _ & Hline & Hres).
  rewrite Hres in Hvalid.
  destruct (comprehension float (split DATA_SEPARATOR data_line))
    as [data_numbers|e] eqn:Hnums; [|discriminate].
  injection Hvalid as _ <-. cbn [snd].
  rewrite (comprehension_length _ _ _ Hnums).
  unfold entry_count in Hcount. rewrite Hline in Hcount.
  now injection Hcount.
Qed.

(** Every item [read_data_files] returns was accepted by [data_is_valid]
    for one of the files. *)
Lemma read_data_files_sound (files : list (string * list string)) :
  forall (acc : list (string * list Q)) (w : list string)
         (data : list (string * list Q)),
  lfor_each files
    (fun file data =>
       let '(data_file_name, this_data) := file in
       data_read <~ data_is_valid float this_data ;;
       match data_read with
       | Some item => ret (data ++ [item])
       | None =>
           warning ("Data is not valid from file: " ++ data_file_name) ;;;
           ret data
       end) acc = (w, Ok data) ->
  forall item, In item data ->
  In item acc \/
  exists name lines w',
    In (name, lines) files /\
    data_is_valid float lines = (w', Ok (Some item)).
Proof.
  induction files as [|[name lines] files IH]; intros acc w data Hrun item Hin.
  - cbn [lfor_each ret] in Hrun. injection Hrun as _ <-. now left.
  - cbn [lfor_each] in Hrun.
    destruct (data_is_valid float lines) as [w1 [[it|]|e]] eqn:Hvalid;
      cbn [lbind ret warning app] in Hrun.
    + step_loop Hrun w2 data' Hrest.
      injection Hrun as _ <-.
      destruct (IH _ _ _ Hrest item Hin) as [Hacc|(n & l & w' & Hf & Hv)].
      * apply in_app_or in Hacc. destruct Hacc as [Hacc|[<-|[]]].
        -- now left.
        -- right. exists name, lines, w1. split; [now left|exact Hvalid].
      * right. exists n, l, w'. split; [now right|exact Hv].
    + step_loop Hrun w2 data' Hrest.
      injection Hrun as _ <-.
      destruct (IH _ _ _ Hrest item Hin) as [Hacc|(n & l & w' & Hf & Hv)].
      * now left.
      * right. exists n, l, w'. split; [now right|exact Hv].
    + discriminate.
Qed.

(** [main] plots exactly the items [read_data_files] returned. *)
Lemma main_loop_plots (flag : bool) (data : list (string * list Q)) :
  forall (acc : list figure) (w : list string) (figs : list figure),
  lfor_each data
    (fun data_item shown =>
       fig <~ lift (plot_polar (fst data_item) (snd data_item) flag) ;;
       ret (shown ++ [fig])) acc = (w, Ok figs) ->
  exists new,
    figs = acc ++ new /\
    Forall2 (fun data_item fig =>
               plot_polar (fst data_item) (snd data_item) flag = Ok fig)
      data new.
Proof.
  induction data as [|item data IH]; intros acc w figs Hrun.
  - cbn [lfor_each ret] in Hrun. injection Hrun as _ <-.
    exists []. split; [now rewrite app_nil_r|constructor].
  - cbn [lfor_each] in Hrun.
    destruct (plot_polar (fst item) (snd item) flag) as [fig|e] eqn:Hfig;
      cbn [lift lbind ret app] in Hrun; [|discriminate].
    step_loop Hrun w2 figs' Hrest.
    injection Hrun as _ <-.
    destruct (IH _ _ _ Hrest) as (new & -> & Hall).
    exists (fig :: new). split; [now rewrite <- app_assoc|].
    constructor; assumption.
Qed.

End IngestionFacts.

(** A data line of the right size with an entry that [float] refuses makes
    [data_is_valid] raise; nothing is logged and nothing is returned. *)
Lemma data_is_valid_raises (float : string -> result Q)
  (data_read : list string) (data_line entry : string) (e : exn) :
  nth_error data_read DATA_FILE_ITEM_WITH_DATA = Some data_line ->
  length (split DATA_SEPARATOR data_line) = DATA_SIZE ->
  In entry (split DATA_SEPARATOR data_line) ->
  float entry = Raise e ->
  exists e', data_is_valid float data_read = ([], Raise e').
Proof.
  intros Hline Hcount Hin Hraise.
  destruct (data_is_valid_sized float data_read)
    as (title & data_line' & _ & Hline' & Hres).
  { unfold entry_count. rewrite Hline. cbn [option_map]. now rewrite Hcount. }
  assert (data_line' = data_line) by congruence. subst data_line'.
  destruct (comprehension_raises float _ entry e Hin Hraise) as (e' & He').
  rewrite He' in Hres. now exists e'.
Qed.

(** C8, as worded, fails: [(N_a - 1) * N_z] is 60, not 65. The file with
    65 entries is accepted, the file with 60 entries is refused. *)
Lemma C8_count_formula_counterexample :
  (length AZIMUTHS - 1) * length ZENITHS = 60 /\
  entry_count good_file = Some 65 /\
  ~ count_as_specified float_of_decimal good_file /\
  (exists item, data_is_valid float_of_decimal good_file = ([], Ok (Some item))) /\
  entry_count file_60 = Some ((length AZIMUTHS - 1) * length ZENITHS) /\
  data_is_valid float_of_decimal file_60 =
    (["Data size is not valid: 60"%string], Ok None).
Proof.
  split; [reflexivity|].
  split; [reflexivity|].
  assert (Hgood : exists item,
             data_is_valid float_of_decimal good_file = ([], Ok (Some item))).
  { eexists. vm_compute. reflexivity. }
  split.
  { intros Hcheck. destruct Hgood as (item & Hitem).
    specialize (Hcheck _ _ Hitem). vm_compute in Hcheck. discriminate. }
  split; [exact Hgood|].
  split; vm_compute; reflexivity.
Qed.

(** C8, amended. Whatever [float] does: the count that ingestion requires
    is [DATA_SIZE] = [N_a * N_z] = 65; a file whose data line does not
    split into exactly 65 entries (or that has no data line) makes
    [data_is_valid] return None after one warning; a file it accepts has
    exactly 65 entries and yields 65 values; every item that
    [read_data_files] returns comes from a file with exactly 65 entries;
    and [main] calls [plot_polar] on those items only. *)
Theorem C8_entry_count_check (float : string -> result Q) :
  (forall data_read,
      entry_count data_read <> Some DATA_SIZE ->
      exists msg, data_is_valid float data_read = ([msg], Ok None)) /\
  (forall data_read w item,
      data_is_valid float data_read = (w, Ok (Some item)) ->
      entry_count data_read = Some DATA_SIZE /\
      length (snd item) = DATA_SIZE) /\
  (forall files w data,
      read_data_files float files = (w, Ok data) ->
      forall item, In item data ->
      exists name lines,
        In (name, lines) files /\
        entry_count lines = Some DATA_SIZE /\
        length (snd item) = DATA_SIZE) /\
  (forall files flag w figs,
      main float files flag = (w, Ok figs) ->
      exists w' data,
        read_data_files float files = (w', Ok data) /\
        Forall2 (fun data_item fig =>
                   plot_polar (fst data_item) (snd data_item) flag = Ok fig)
          data figs) /\
  DATA_SIZE = 65 /\
  DATA_SIZE = length AZIMUTHS * length ZENITHS.
Proof.
  split; [apply data_is_valid_rejects|].
  split; [apply data_is_valid_accepts|].
  split.
  { intros files w data Hread item Hin.
    destruct (read_data_files_sound float files [] w data Hread item Hin)
      as [[]|(name & lines & w' & Hfile & Hvalid)].
    destruct (data_is_valid_accepts float lines w' item Hvalid).
    exists name, lines. auto. }
  split; [|split; reflexivity].
  intros files flag w figs Hmain. unfold main in Hmain.
  destruct (read_data_files float files) as [w1 [data|e]];
    cbn [lbind] in Hmain; [|discriminate].
  step_loop Hmain w2 figs' Hrest.
  injection Hmain as _ <-.
  destruct (main_loop_plots flag data [] w2 figs' Hrest) as (new & -> & Hall).
  exists w1, data. split; [reflexivity|exact Hall].
Qed.

Lemma C8_entry_count_check_witness :
  entry_count file_64 = Some 64 /\
  exists msg, data_is_valid float_of_decimal file_64 = ([msg], Ok None).
Proof.
  split; [reflexivity|].
  apply (proj1 (C8_entry_count_check float_of_decimal) file_64).
  vm_compute. discriminate.
Defined.

(** C9. The claim fails on the code. For the file whose data line has 65
    entries, the last of them [abc], the conversion [float] raises
    ValueError inside [data_is_valid]: no warning is logged, None is not
    returned, and the exception leaves [read_data_files] and [main]. *)
Theorem C9_non_numeric_entry_raises :
  entry_count file_nan_entry = Some DATA_SIZE /\
  float_of_decimal ("abc" ++ newline) = Raise ValueError /\
  data_is_valid float_of_decimal file_nan_entry = ([], Raise ValueError) /\
  data_is_valid float_of_decimal file_nan_entry <>
    (["Data contains items that are not real numbers."%string], Ok None) /\
  read_data_files float_of_decimal [("c.dat"%string, file_nan_entry)] =
    ([], Raise ValueError) /\
  main float_of_decimal [("c.dat"%string, file_nan_entry)] false =
    ([], Raise ValueError).
Proof.
  repeat split; try (vm_compute; reflexivity).
  vm_compute. discriminate.
Qed.

(** * Further properties of the code *)

(** ** np.interp on increasing sample points *)

Lemma Qltb_true (x y : Q) : Qltb x y = true <-> (x < y)%Q.
Proof.
  unfold Qltb. rewrite negb_true_iff. split.
  - intros H. apply Qnot_le_lt. intros Hle.
    apply Qle_bool_iff in Hle. congruence.
  - intros H. destruct (Qle_bool y x) eqn:E; [|reflexivity].
    apply Qle_bool_iff in E. exfalso. exact (Qlt_not_le _ _ H E).
Qed.

Lemma Qltb_false (x y : Q) : Qltb x y = false <-> (y <= x)%Q.
Proof.
  unfold Qltb. rewrite negb_false_iff. apply Qle_bool_iff.
Qed.

Lemma increasing_tail (x0 : Q) (xp : list Q) :
  strictly_increasing (x0 :: xp) -> strictly_increasing xp.
Proof. destruct xp as [|x1 xp]; [trivial|]. now intros [_ H]. Qed.

Lemma increasing_head_le (xp : list Q) :
  forall x0 j, strictly_increasing (x0 :: xp) -> j < length (x0 :: xp) ->
  (x0 <= nth j (x0 :: xp) 0)%Q.
Proof.
  induction xp as [|x1 xp IH]; intros x0 j Hinc Hj.
  - destruct j as [|[|j]]; cbn [nth]; try apply Qle_refl; cbn in Hj; lia.
  - destruct j as [|j]; [apply Qle_refl|].
    destruct Hinc as [Hlt Hinc].
    apply Qle_trans with x1; [now apply Qlt_le_weak|].
    change (nth (S j) (x0 :: x1 :: xp) 0%Q) with (nth j (x1 :: xp) 0%Q).
    apply IH; [exact Hinc|cbn [length] in *; lia].
Qed.

Lemma interp_from_step (x x0 x1 y0 y1 : Q) (xp fp : list Q) :
  interp_from x (x0 :: x1 :: xp) (y0 :: y1 :: fp) =
  if Qltb x x1 then ((y1 - y0) / (x1 - x0) * (x - x0) + y0)%Q
  else interp_from x (x1 :: xp) (y1 :: fp).
Proof. reflexivity. Qed.

(** At a sample point the interpolation returns the value given there. *)
Lemma interp_from_knot (xp : list Q) :
  forall fp j,
  strictly_increasing xp -> length fp = length xp -> j < length xp ->
  (interp_from (nth j xp 0) xp fp == nth j fp 0)%Q.
Proof.
  induction xp as [|x0 xp IH]; intros fp j Hinc Hlen Hj; [cbn in Hj; lia|].
  destruct fp as [|y0 fp]; [discriminate Hlen|].
  destruct xp as [|x1 xp].
  - destruct fp; [|discriminate Hlen].
    destruct j as [|j]; [reflexivity|cbn in Hj; lia].
  - destruct fp as [|y1 fp]; [discriminate Hlen|].
    destruct j as [|j].
    + cbn [nth]. rewrite interp_from_step.
      destruct Hinc as [Hlt _]. apply Qltb_true in Hlt. rewrite Hlt.
      generalize ((y1 - y0) / (x1 - x0))%Q. intros s. ring.
    + change (nth (S j) (x0 :: x1 :: xp) 0%Q) with (nth j (x1 :: xp) 0%Q).
      change (nth (S j) (y0 :: y1 :: fp) 0%Q) with (nth j (y1 :: fp) 0%Q).
      assert (Hge : (x1 <= nth j (x1 :: xp) 0)%Q).
      { apply increasing_head_le; [now apply increasing_tail in Hinc|].
        cbn [length] in *. lia. }
      rewrite interp_from_step. apply Qltb_false in Hge. rewrite Hge.
      apply IH.
      * now apply increasing_tail in Hinc.
      * cbn [length] in *. lia.
      * cbn [length] in *. lia.
Qed.

Lemma interp1_knot (xp fp : list Q) (j : nat) :
  strictly_increasing xp -> length fp = length xp -> j < length xp ->
  (interp1 xp fp (nth j xp 0) == nth j fp 0)%Q.
Proof.
  intros Hinc Hlen Hj. unfold interp1.
  destruct xp as [|x0 xp]; [cbn in Hj; lia|].
  destruct fp as [|y0 fp]; [discriminate Hlen|].
  assert (Hge : (x0 <= nth j (x0 :: xp) 0)%Q)
    by now apply increasing_head_le.
  apply Qltb_false in Hge. rewrite Hge.
  now apply interp_from_knot.
Qed.

(** A point of the segment between two samples lies between their values. *)
Lemma lerp_between (lo hi x0 x1 x y0 y1 : Q) :
  (x0 < x1)%Q -> (x0 <= x)%Q -> (x < x1)%Q ->
  between lo hi y0 -> between lo hi y1 ->
  between lo hi ((y1 - y0) / (x1 - x0) * (x - x0) + y0)%Q.
Proof.
  intros H01 H0 H1 [Hl0 Hh0] [Hl1 Hh1].
  set (s := ((y1 - y0) / (x1 - x0))%Q).
  assert (Hs : (s * (x1 - x0) == y1 - y0)%Q).
  { unfold s. field. lra. }
  clearbody s. unfold between.
  destruct (Qlt_le_dec s 0) as [Hneg|Hpos]; split; nra.
Qed.

Lemma interp_from_between (lo hi : Q) (xp : list Q) :
  forall fp x,
  strictly_increasing xp -> length fp = length xp -> xp <> [] ->
  (hd 0 xp <= x)%Q ->
  Forall (between lo hi) fp ->
  between lo hi (interp_from x xp fp).
Proof.
  induction xp as [|x0 xp IH]; intros fp x Hinc Hlen Hne Hx Hfp;
    [congruence|].
  destruct fp as [|y0 fp]; [discriminate Hlen|].
  destruct xp as [|x1 xp].
  - destruct fp; [|discriminate Hlen]. now inversion Hfp.
  - destruct fp as [|y1 fp]; [discriminate Hlen|].
    rewrite interp_from_step.
    inversion Hfp as [|? ? Hy0 Hrest]; subst.
    destruct (Qltb x x1) eqn:E.
    + apply Qltb_true in E. destruct Hinc as [Hlt _].
      apply lerp_between; auto. now inversion Hrest.
    + apply Qltb_false in E. apply IH; auto.
      * now apply increasing_tail in Hinc.
      * discriminate.
Qed.

(** No overshoot: the interpolated value stays between the bounds of the
    sample values, wherever the query point is. *)
Lemma interp1_between (lo hi : Q) (xp fp : list Q) (x : Q) :
  strictly_increasing xp -> length fp = length xp -> xp <> [] ->
  Forall (between lo hi) fp ->
  between lo hi (interp1 xp fp x).
Proof.
  intros Hinc Hlen Hne Hfp. unfold interp1.
  destruct xp as [|x0 xp]; [congruence|].
  destruct fp as [|y0 fp]; [discriminate Hlen|].
  destruct (Qltb x x0) eqn:E.
  - now inversion Hfp.
  - apply Qltb_false in E. now apply interp_from_between.
Qed.

Lemma ZENITHS_increasing : strictly_increasing (map inject_Z ZENITHS).
Proof. cbn. repeat split; reflexivity. Qed.

Lemma AZIMUTHS_increasing : strictly_increasing (map inject_Z AZIMUTHS).
Proof. cbn. repeat split; reflexivity. Qed.

(** ** Bounds through the pipeline *)

Lemma Forall_firstn {A : Type} (P : A -> Prop) (n : nat) (l : list A) :
  Forall P l -> Forall P (firstn n l).
Proof.
  intros H. revert n. induction H as [|a l Ha Hl IH]; intros [|n];
    cbn [firstn]; auto.
Qed.

Lemma Forall_skipn {A : Type} (P : A -> Prop) (n : nat) (l : list A) :
  Forall P l -> Forall P (skipn n l).
Proof.
  intros H. revert n. induction H as [|a l Ha Hl IH]; intros [|n];
    cbn [skipn]; auto.
Qed.

Lemma Forall_slice {A : Type} (P : A -> Prop) (l : list A) (i j : nat) :
  Forall P l -> Forall P (slice l i j).
Proof. intros H. unfold slice. now apply Forall_firstn, Forall_skipn. Qed.

Lemma Forall_removelast {A : Type} (P : A -> Prop) (l : list A) :
  Forall P l -> Forall P (removelast l).
Proof. intros H. rewrite removelast_firstn_len. now apply Forall_firstn. Qed.

Lemma zenith_profile_between (lo hi : Q) (yp : list Q) :
  length yp = 5 -> Forall (between lo hi) yp ->
  Forall (between lo hi) (zenith_profile yp).
Proof.
  intros Hlen Hyp. unfold zenith_profile. apply Forall_map, Forall_forall.
  intros q _. apply interp1_between; auto.
  - apply ZENITHS_increasing.
  - discriminate.
Qed.

Lemma azimuth_profile_between (lo hi : Q) (values_at_zenith : list Q) :
  length values_at_zenith = 13 -> Forall (between lo hi) values_at_zenith ->
  Forall (between lo hi) (azimuth_profile values_at_zenith).
Proof.
  intros Hlen Hyp. unfold azimuth_profile. apply Forall_map, Forall_forall.
  intros q _. apply interp1_between; auto.
  - apply AZIMUTHS_increasing.
  - discriminate.
Qed.

Lemma block_length (initial_values : list Q) (k : nat) :
  5 * k + 5 <= length initial_values -> length (block initial_values k) = 5.
Proof.
  intros Hk. unfold block. change (length ZENITHS) with 5.
  rewrite slice_length; lia.
Qed.

Lemma interp_zeniths_between (lo hi : Q) (initial_values : list Q) :
  5 * 13 <= length initial_values ->
  Forall (between lo hi) initial_values ->
  Forall (between lo hi) (interp_zeniths_of initial_values).
Proof.
  intros Hlen Hvals. unfold interp_zeniths_of.
  apply Forall_flat_map, Forall_forall. intros k Hk.
  apply in_seq in Hk. rewrite len_AZIMUTHS in Hk.
  apply zenith_profile_between.
  - apply block_length. lia.
  - now apply Forall_slice.
Qed.

Lemma gathered_between (P : Q -> Prop) (interp_zeniths : list Q) (i : nat) :
  i + 71 * 12 < length interp_zeniths ->
  Forall P interp_zeniths ->
  Forall P (gathered interp_zeniths i).
Proof.
  intros Hlen Hall. unfold gathered. apply Forall_map, Forall_forall.
  intros j Hj. apply in_seq in Hj. rewrite len_AZIMUTHS in Hj.
  rewrite len_ALL_ZENITH_VALUES.
  apply (proj1 (Forall_nth P interp_zeniths) Hall). lia.
Qed.

Lemma all_azimuths_between (lo hi : Q) (interp_zeniths : list Q) :
  71 * 13 <= length interp_zeniths ->
  Forall (between lo hi) interp_zeniths ->
  Forall (between lo hi) (all_azimuths_of interp_zeniths).
Proof.
  intros Hlen Hall. unfold all_azimuths_of.
  apply Forall_flat_map, Forall_forall. intros i Hi.
  apply in_seq in Hi. rewrite len_ALL_ZENITH_VALUES in Hi.
  unfold sweep. apply Forall_removelast, azimuth_profile_between.
  - apply gathered_length.
  - apply gathered_between; [lia|exact Hall].
Qed.

Lemma reshaped_between (P : Q -> Prop) (a : list Q) (rows cols : nat) :
  length a = rows * cols -> Forall P a ->
  Forall (Forall P) (reshaped a rows cols).
Proof.
  intros Hlen Hall. unfold reshaped. apply Forall_map, Forall_forall.
  intros r Hr. apply in_seq in Hr.
  apply Forall_map, Forall_forall. intros c Hc. apply in_seq in Hc.
  apply (proj1 (Forall_nth P a) Hall). nia.
Qed.

(** All cells of the grid assembled from a bounded record are bounded. *)
Lemma assembled_between (lo hi : Q) (initial_values : list Q) :
  length initial_values = DATA_SIZE ->
  Forall (between lo hi) initial_values ->
  exists g,
    assembled_grid initial_values = Ok g /\
    length g = 361 /\
    Forall (fun row => length row = 71) g /\
    Forall (Forall (between lo hi)) g.
Proof.
  intros Hlen Hvals.
  assert (Hflat : Forall (between lo hi)
                    (all_azimuths_of (interp_zeniths_of initial_values))).
  { apply all_azimuths_between.
    - rewrite interp_zeniths_length. lia.
    - apply interp_zeniths_between; [rewrite Hlen; apply Nat.le_refl|exact Hvals]. }
  pose proof (all_azimuths_length (interp_zeniths_of initial_values)) as Hall.
  eexists. split; [apply assembled_ok, Hlen|]. cbv zeta.
  revert Hflat Hall.
  generalize (all_azimuths_of (interp_zeniths_of initial_values)).
  intros flat Hflat Hall.
  assert (Ha : Forall (Forall (between lo hi))
                 (reshaped (append_wrap flat) 361 71)).
  { apply reshaped_between.
    - now apply append_wrap_length.
    - unfold append_wrap. apply Forall_app.
      split; [exact Hflat|now apply Forall_slice]. }
  pose proof (reshaped_length (append_wrap flat) 361 71) as HG.
  pose proof (reshaped_rows (append_wrap flat) 361 71) as HR.
  revert Ha HG HR.
  generalize (reshaped (append_wrap flat) 361 71). intros G Ha HG HR.
  split; [now rewrite update_length|].
  split.
  - apply Forall_update; [exact HR|].
    apply (proj1 (Forall_nth (fun row => length row = 71) G) HR 0 []). lia.
  - apply Forall_update; [exact Ha|].
    apply (proj1 (Forall_nth (Forall (between lo hi)) G) Ha 0 []). lia.
Qed.

Lemma cell_in_rows (P : Q -> Prop) (g : grid) (r c : nat) :
  Forall (Forall P) g -> r < length g -> c < length (nth r g []) ->
  P (cell g r c).
Proof.
  intros Hall Hr Hc. unfold cell.
  apply (proj1 (Forall_nth P (nth r g [])));
    [|exact Hc].
  apply (proj1 (Forall_nth (Forall P) g) Hall r [] Hr).
Qed.




(** X2. A constant field stays constant: for every value [v], the record
    of [DATA_SIZE] copies of [v] is assembled into a grid all of whose
    cells equal [v]. *)
Theorem constant_record_constant_grid (v : Q) :
  exists g,
    assembled_grid (repeat v DATA_SIZE) = Ok g /\
    forall r c, r < 361 -> c < 71 -> (cell g r c == v)%Q.
Proof.
  destruct (assembled_between v v (repeat v DATA_SIZE))
    as (g & Hg & Hrows & Hcols & Hall).
  - apply repeat_length.
  - apply Forall_forall. intros y Hy. apply repeat_spec in Hy. subst y.
    split; apply Qle_refl.
  - exists g. split; [exact Hg|]. intros r c Hr Hc.
    assert (Hb : between v v (cell g r c)).
    { apply cell_in_rows; [exact Hall|lia|].
      rewrite (proj1 (Forall_nth _ g) Hcols r []) by lia. exact Hc. }
    destruct Hb as [Hlo Hhi]. now apply Qle_antisym.
Qed.

(** ** The two passes at the sampled angles *)

Lemma nth_map_in {A B : Type} (f : A -> B) (l : list A) (i : nat)
  (d : A) (d' : B) :
  i < length l -> nth i (map f l) d' = f (nth i l d).
Proof.
  intros Hi. rewrite (nth_indep _ d' (f d)) by now rewrite length_map.
  apply map_nth.
Qed.

Lemma nth_block (initial_values : list Q) (j k : nat) :
  k < 5 -> nth k (block initial_values j) 0%Q = measure initial_values j k.
Proof.
  intros Hk. rewrite block_spec, nth_firstn.
  destruct (Nat.ltb_spec k 5); [|lia].
  rewrite nth_skipn. reflexivity.
Qed.

Lemma sampled_azimuth_index (j : nat) :
  j < 13 ->
  dense_azimuth_index (nth j AZIMUTHS 0%Z) < 361 /\
  nth (dense_azimuth_index (nth j AZIMUTHS 0%Z)) AZIMUTH_RANGE 0%Z =
  nth j AZIMUTHS 0%Z.
Proof.
  intros Hj.
  do 13 (destruct j as [|j]; [split; [vm_compute; lia|reflexivity]|]).
  lia.
Qed.

Lemma sampled_zenith_index (k : nat) :
  k < 5 ->
  dense_zenith_index (nth k ZENITHS 0%Z) < 71 /\
  nth (dense_zenith_index (nth k ZENITHS 0%Z)) ALL_ZENITH_VALUES 0%Z =
  nth k ZENITHS 0%Z.
Proof.
  intros Hk.
  do 5 (destruct k as [|k]; [split; [vm_compute; lia|reflexivity]|]).
  lia.
Qed.

(** The zenith pass returns each measure at its sampled zenith. *)
Lemma zenith_profile_exact (yp : list Q) (k : nat) :
  length yp = 5 -> k < 5 ->
  (nth (dense_zenith_index (nth k ZENITHS 0%Z)) (zenith_profile yp) 0
   == nth k yp 0)%Q.
Proof.
  intros Hlen Hk.
  destruct (sampled_zenith_index k Hk) as [Hz Hnth].
  unfold zenith_profile.
  rewrite (nth_map_in _ _ _ 0%Z) by (rewrite len_ALL_ZENITH_VALUES; exact Hz).
  rewrite Hnth.
  rewrite <- (nth_map_in inject_Z ZENITHS k 0%Z 0%Q) by exact Hk.
  apply interp1_knot.
  - apply ZENITHS_increasing.
  - now rewrite length_map.
  - now rewrite length_map.
Qed.

(** The azimuth pass returns each gathered value at its sampled azimuth. *)
Lemma azimuth_profile_exact (values_at_zenith : list Q) (j : nat) :
  length values_at_zenith = 13 -> j < 13 ->
  (nth (dense_azimuth_index (nth j AZIMUTHS 0%Z))
       (azimuth_profile values_at_zenith) 0
   == nth j values_at_zenith 0)%Q.
Proof.
  intros Hlen Hj.
  destruct (sampled_azimuth_index j Hj) as [Ha Hnth].
  unfold azimuth_profile.
  rewrite (nth_map_in _ _ _ 0%Z) by (rewrite len_AZIMUTH_RANGE; exact Ha).
  rewrite Hnth.
  rewrite <- (nth_map_in inject_Z AZIMUTHS j 0%Z 0%Q) by exact Hj.
  apply interp1_knot.
  - apply AZIMUTHS_increasing.
  - now rewrite length_map.
  - now rewrite length_map.
Qed.

Lemma sweeps_exact (initial_values : list Q) (j k : nat) :
  length initial_values = DATA_SIZE -> j < 13 -> k < 5 ->
  (nth (dense_azimuth_index (nth j AZIMUTHS 0%Z))
       (azimuth_profile
          (gathered (interp_zeniths_of initial_values)
             (dense_zenith_index (nth k ZENITHS 0%Z)))) 0
   == measure initial_values j k)%Q.
Proof.
  intros Hlen Hj Hk.
  destruct (sampled_zenith_index k Hk) as [Hz _].
  rewrite azimuth_profile_exact by (apply gathered_length || exact Hj).
  rewrite nth_gathered by exact Hj.
  rewrite nth_interp_zeniths by assumption.
  rewrite zenith_profile_exact.
  - now rewrite nth_block.
  - apply block_length. rewrite Hlen. change DATA_SIZE with 65. lia.
  - exact Hk.
Qed.

(** X3. The two interpolation passes are exact at the samples: for every
    record of [DATA_SIZE] values, sampled azimuth number [j] and sampled
    zenith number [k], the profile that [np.interp] returns in the azimuth
    pass for the dense index of that zenith holds, at the dense index of
    that azimuth, the record's measure for the pair. *)
Theorem passes_exact_at_samples (initial_values : list Q) (j k : nat) :
  length initial_values = DATA_SIZE ->
  j < length AZIMUTHS ->
  k < length ZENITHS ->
  exists interp_zeniths values_at_zenith int,
    zenith_loop initial_values 0 [] = Ok interp_zeniths /\
    gather_at_zenith interp_zeniths
      (dense_zenith_index (nth k ZENITHS 0%Z)) = Ok values_at_zenith /\
    np_interp AZIMUTH_RANGE AZIMUTHS values_at_zenith = Ok int /\
    (nth (dense_azimuth_index (nth j AZIMUTHS 0%Z)) int 0
     == measure initial_values j k)%Q.
Proof.
  intros Hlen Hj Hk.
  destruct (sampled_zenith_index k Hk) as [Hz _].
  exists (interp_zeniths_of initial_values).
  eexists. eexists.
  split; [apply zenith_pass_ok, Hlen|].
  split; [apply gather_ok; rewrite interp_zeniths_length; lia|].
  split; [apply np_interp_ok; [discriminate|apply gathered_length]|].
  now apply sweeps_exact.
Qed.

Lemma passes_exact_at_samples_witness :
  exists interp_zeniths values_at_zenith int,
    zenith_loop spike_record 0 [] = Ok interp_zeniths /\
    gather_at_zenith interp_zeniths
      (dense_zenith_index (nth 1 ZENITHS 0%Z)) = Ok values_at_zenith /\
    np_interp AZIMUTH_RANGE AZIMUTHS values_at_zenith = Ok int /\
    (nth (dense_azimuth_index (nth 1 AZIMUTHS 0%Z)) int 0
     == measure spike_record 1 1)%Q.
Proof.
  apply (passes_exact_at_samples spike_record 1 1);
    [reflexivity | vm_compute; lia | vm_compute; lia].
Defined.

(** The last row of the assembled grid repeats its first row. *)
Lemma last_row_cells (initial_values : list Q) :
  length initial_values = DATA_SIZE ->
  exists g,
    assembled_grid initial_values = Ok g /\
    forall c, c < 71 ->
      cell g 360 c =
      nth c (azimuth_profile
               (gathered (interp_zeniths_of initial_values) c)) 0%Q.
Proof.
  intros Hlen. eexists. split; [apply assembled_ok, Hlen|].
  cbv zeta. intros c Hc.
  pose proof (all_azimuths_length (interp_zeniths_of initial_values)) as Hall.
  unfold cell at 1.
  rewrite nth_update_eq by (rewrite reshaped_length; lia).
  change (nth c (nth 0 (reshaped ?a 361 71) []) 0%Q)
    with (cell (reshaped a 361 71) 0 c).
  rewrite cell_reshaped by lia.
  unfold append_wrap. rewrite app_nth1 by lia.
  replace (0 + 361 * c) with (360 * c + c) by lia.
  rewrite nth_all_azimuths by lia.
  unfold sweep. apply nth_removelast.
  rewrite azimuth_profile_length. lia.
Qed.

(** X4. The zenith-20 column is exact, and the row for 360 degrees shows
    the measure of 0 degrees: for every record of [DATA_SIZE] values and
    each of the first twelve sampled azimuths, the cell of the assembled
    grid at that azimuth's dense index and zenith index 0 equals the
    record's measure for that azimuth at the first sampled zenith; and the
    cell [grid[360][0]] equals the measure filed under azimuth 0, not the
    one filed under azimuth 360. *)
Theorem first_column_exact (initial_values : list Q) (j : nat) :
  length initial_values = DATA_SIZE ->
  j < length AZIMUTHS - 1 ->
  exists g,
    assembled_grid initial_values = Ok g /\
    (cell g (dense_azimuth_index (nth j AZIMUTHS 0%Z)) 0
     == measure initial_values j 0)%Q /\
    (cell g (dense_azimuth_index (last AZIMUTHS 0%Z)) 0
     == measure initial_values 0 0)%Q.
Proof.
  intros Hlen Hj. change (length AZIMUTHS - 1) with 12 in Hj.
  destruct (sampled_azimuth_index j) as [Ha _]; [lia|].
  assert (Ha' : dense_azimuth_index (nth j AZIMUTHS 0%Z) <= 359).
  { do 12 (destruct j as [|j]; [vm_compute; lia|]). lia. }
  destruct (cell_rotated initial_values
              (dense_azimuth_index (nth j AZIMUTHS 0%Z)) 0 Hlen)
    as (g & Hg & Hcell); [lia|lia|].
  destruct (last_row_cells initial_values Hlen) as (g' & Hg' & Hlast).
  assert (g' = g) by congruence. subst g'.
  exists g. split; [exact Hg|]. split.
  - rewrite Hcell, Nat.add_0_r.
    apply (sweeps_exact initial_values j 0 Hlen); lia.
  - change (dense_azimuth_index (last AZIMUTHS 0%Z)) with 360.
    rewrite Hlast by lia.
    apply (sweeps_exact initial_values 0 0 Hlen); lia.
Qed.

Lemma first_column_exact_witness :
  exists g,
    assembled_grid open_record = Ok g /\
    (cell g (dense_azimuth_index (nth 11 AZIMUTHS 0%Z)) 0
     == measure open_record 11 0)%Q /\
    (cell g (dense_azimuth_index (last AZIMUTHS 0%Z)) 0
     == measure open_record 0 0)%Q.
Proof.
  apply (first_column_exact open_record 11); [reflexivity|vm_compute; lia].
Defined.

(** ** Where every cell of the grid comes from *)

(** X5. The rest of the layout: for every record of [DATA_SIZE] values,
    a cell [grid[a][z]] with [a <= 359], [z <= 69] and [a + z >= 360]
    holds the value interpolated for dense azimuth [a + z - 360] at the
    next zenith index [z + 1]; a cell [grid[a][70]] with
    [290 <= a <= 359] holds the value for dense azimuth [a - 290] at
    zenith index 0, taken from the 71 appended values; and [grid[360][z]]
    holds the value for dense azimuth [z] at zenith index [z]. *)
Theorem grid_layout_wrapped (initial_values : list Q) :
  length initial_values = DATA_SIZE ->
  exists interp_zeniths g,
    zenith_loop initial_values 0 [] = Ok interp_zeniths /\
    assembled_grid initial_values = Ok g /\
    (forall a z, a <= 359 -> z <= 69 -> 360 <= a + z ->
       cell g a z =
       nth (a + z - 360)
         (azimuth_profile (gathered interp_zeniths (z + 1))) 0%Q) /\
    (forall a, 290 <= a -> a <= 359 ->
       cell g a 70 =
       nth (a - 290) (azimuth_profile (gathered interp_zeniths 0)) 0%Q) /\
    (forall z, z <= 70 ->
       cell g 360 z =
       nth z (azimuth_profile (gathered interp_zeniths z)) 0%Q).
Proof.
  intros Hlen. exists (interp_zeniths_of initial_values).
  destruct (last_row_cells initial_values Hlen) as (g & Hg & Hlast).
  exists g. split; [apply zenith_pass_ok, Hlen|]. split; [exact Hg|].
  pose proof (all_azimuths_length (interp_zeniths_of initial_values)) as Hall.
  assert (Hcell : forall r c, r < 360 -> c < 71 ->
            cell g r c =
            nth (r + 361 * c)
              (append_wrap
                 (all_azimuths_of (interp_zeniths_of initial_values))) 0%Q).
  { intros r c Hr Hc. rewrite assembled_ok in Hg by exact Hlen.
    apply (f_equal (fun res => match res with
                               | Ok h => cell h r c
                               | Raise _ => 0%Q
                               end)) in Hg.
    cbv beta iota zeta in Hg. rewrite <- Hg. now apply cell_assembled. }
  split; [|split].
  - intros a z Ha Hz Haz. rewrite Hcell by lia.
    unfold append_wrap. rewrite app_nth1 by lia.
    replace (a + 361 * z) with (360 * (z + 1) + (a + z - 360)) by lia.
    rewrite nth_all_azimuths by lia.
    unfold sweep. apply nth_removelast.
    rewrite azimuth_profile_length. lia.
  - intros a Hlo Hhi. rewrite Hcell by lia.
    unfold append_wrap. rewrite app_nth2 by lia.
    replace (a + 361 * 70
             - length (all_azimuths_of (interp_zeniths_of initial_values)))
      with (a - 290) by lia.
    unfold slice. rewrite nth_firstn.
    destruct (Nat.ltb_spec (a - 290) (71 - 0)); [|lia].
    change (skipn 0 ?l) with l.
    replace (a - 290) with (360 * 0 + (a - 290)) at 1 by lia.
    rewrite nth_all_azimuths by lia.
    unfold sweep. apply nth_removelast.
    rewrite azimuth_profile_length. lia.
  - intros z Hz. apply Hlast. lia.
Qed.

Lemma grid_layout_wrapped_witness :
  exists interp_zeniths g,
    zenith_loop spike_record 0 [] = Ok interp_zeniths /\
    assembled_grid spike_record = Ok g /\
    (forall a z, a <= 359 -> z <= 69 -> 360 <= a + z ->
       cell g a z =
       nth (a + z - 360)
         (azimuth_profile (gathered interp_zeniths (z + 1))) 0%Q) /\
    (forall a, 290 <= a -> a <= 359 ->
       cell g a 70 =
       nth (a - 290) (azimuth_profile (gathered interp_zeniths 0)) 0%Q) /\
    (forall z, z <= 70 ->
       cell g 360 z =
       nth z (azimuth_profile (gathered interp_zeniths z)) 0%Q).
Proof. apply (grid_layout_wrapped spike_record). reflexivity. Defined.

(** ** When prepare_interp_measures returns *)

Lemma append_wrap_length_any (a : list Q) :
  length (append_wrap a) = length a + Nat.min 71 (length a).
Proof.
  unfold append_wrap, slice.
  now rewrite length_app, length_firstn, length_skipn, Nat.sub_0_r, Nat.sub_0_r.
Qed.

(** X6. [prepare_interp_measures] returns a grid exactly for sequences of
    [360 * 71] values; on any other length, the empty sequence included,
    the reshape raises ValueError. *)
Theorem prepare_returns_iff_full (interp_measures : list Q) :
  (length interp_measures = 360 * 71 ->
   exists g,
     prepare_interp_measures interp_measures =
       Ok (np_radians AZIMUTH_RANGE, g) /\
     length g = 361 /\
     Forall (fun row => length row = 71) g) /\
  (length interp_measures <> 360 * 71 ->
   prepare_interp_measures interp_measures = Raise ValueError).
Proof.
  split.
  - intros Hlen. eexists. split; [apply prepare_ok, Hlen|]. split.
    + now rewrite update_length, reshaped_length.
    + apply Forall_update; [apply reshaped_rows|].
      apply nth_reshaped_length. lia.
  - intros Hlen. unfold prepare_interp_measures, reshape_F, np_radians.
    rewrite length_map, len_AZIMUTH_RANGE, len_ALL_ZENITH_VALUES_INV.
    destruct (Nat.eqb_spec (length (append_wrap interp_measures)) (361 * 71))
      as [Heq|Hne]; [|reflexivity].
    rewrite append_wrap_length_any in Heq. lia.
Qed.

Lemma prepare_returns_iff_full_witness :
  prepare_interp_measures [] = Raise ValueError.
Proof.
  apply (proj2 (prepare_returns_iff_full [])). cbn [length]. lia.
Defined.

(** ** How interpolate_sky_measures ends, by the length of its input *)

Lemma np_interp_mismatch (x xp : list Z) (fp : list Q) :
  length fp <> length xp -> np_interp x xp fp = Raise ValueError.
Proof.
  intros Hne. unfold np_interp.
  destruct (length xp =? 0); [reflexivity|].
  destruct (Nat.eqb_spec (length fp) (length xp)); [contradiction|reflexivity].
Qed.

(** A last block of fewer than five values stops the zenith pass. *)
Lemma zenith_loop_ragged (k : nat) :
  forall (initial_values : list Q) (i r : nat) (interp_zeniths : list Q),
  0 < r -> r < 5 ->
  length initial_values = i + 5 * k + r ->
  zenith_loop initial_values i interp_zeniths = Raise ValueError.
Proof.
  induction k as [|k IH]; intros vs i r acc Hr0 Hr5 Hlen;
    rewrite zenith_loop_step;
    (destruct (Nat.ltb_spec i (length vs)); [|lia]);
    change (length ZENITHS) with 5.
  - rewrite np_interp_mismatch; [reflexivity|].
    unfold slice. rewrite length_firstn, length_skipn.
    change (length ZENITHS) with 5. lia.
  - rewrite np_interp_ok.
    + cbn [bind]. apply (IH vs (i + 5) r); lia.
    + discriminate.
    + rewrite slice_length by lia. change (length ZENITHS) with 5. lia.
Qed.

Lemma for_each_raise {A B : Type} (body : A -> list B -> result (list B))
  (g : A -> list B) (l1 : list A) (a : A) (l2 : list A) (e : exn) :
  (forall x acc, In x l1 -> body x acc = Ok (acc ++ g x)) ->
  (forall acc, body a acc = Raise e) ->
  forall acc, for_each (l1 ++ a :: l2) body acc = Raise e.
Proof.
  intros Hok Hraise.
  induction l1 as [|x l1 IH]; intros acc; cbn [app for_each].
  - now rewrite Hraise.
  - rewrite Hok by now left. cbn [bind]. apply IH.
    intros y acc' Hy. apply Hok. now right.
Qed.

Lemma getitem_raise {A : Type} (a : list A) (index : nat) :
  length a <= index -> getitem a index = Raise IndexError.
Proof.
  intros Hle. unfold getitem.
  now rewrite (proj2 (nth_error_None a index) Hle).
Qed.

(** With fewer than thirteen blocks the gathering runs off the end. *)
Lemma gather_raise (interp_zeniths : list Q) (i k : nat) :
  length interp_zeniths = 71 * k -> k < 13 -> i < 71 ->
  gather_at_zenith interp_zeniths i = Raise IndexError.
Proof.
  intros Hlen Hk Hi. unfold gather_at_zenith.
  rewrite len_AZIMUTHS, len_ALL_ZENITH_VALUES.
  assert (Hseq : seq 0 13 = seq 0 k ++ k :: seq (S k) (12 - k)).
  { change (k :: seq (S k) (12 - k)) with (seq (0 + k) (S (12 - k))).
    rewrite <- seq_app. f_equal. lia. }
  rewrite Hseq.
  apply (for_each_raise _ (fun j => [nth (i + 71 * j) interp_zeniths 0%Q])).
  - intros j acc Hj. apply in_seq in Hj.
    rewrite (getitem_ok _ _ 0%Q) by lia. reflexivity.
  - intros acc. rewrite getitem_raise by lia. reflexivity.
Qed.

Lemma azimuth_loop_ok_ge (interp_zeniths : list Q) :
  71 * 13 <= length interp_zeniths ->
  azimuth_loop interp_zeniths = Ok (all_azimuths_of interp_zeniths).
Proof.
  intros Hlen. unfold azimuth_loop, all_azimuths_of.
  rewrite (for_each_append _ (sweep interp_zeniths)); [reflexivity|].
  intros i acc Hi. apply in_seq in Hi. rewrite len_ALL_ZENITH_VALUES in Hi.
  rewrite gather_ok by lia. cbn [bind].
  rewrite azimuth_sweep_ok by apply gathered_length.
  reflexivity.
Qed.

(** X7. A record whose length is not a multiple of five makes
    [interpolate_sky_measures] raise ValueError: [np.interp] refuses the
    last, shorter block. *)
Theorem interpolate_ragged (initial_values : list Q) :
  length initial_values mod 5 <> 0 ->
  interpolate_sky_measures initial_values = Raise ValueError.
Proof.
  intros Hmod. unfold interpolate_sky_measures.
  rewrite (zenith_loop_ragged (length initial_values / 5) initial_values 0
             (length initial_values mod 5)).
  - reflexivity.
  - lia.
  - apply Nat.mod_upper_bound. discriminate.
  - cbn [Nat.add]. apply Nat.div_mod_eq.
Qed.

Lemma interpolate_ragged_witness :
  interpolate_sky_measures (repeat 5%Q 64) = Raise ValueError.
Proof.
  apply (interpolate_ragged (repeat 5%Q 64)). vm_compute. discriminate.
Defined.

(** X8. A record of fewer than thirteen blocks of five values, the empty
    record included, passes the zenith pass with 71 values per block and
    then makes [interpolate_sky_measures] raise IndexError. *)
Theorem interpolate_too_few (initial_values : list Q) (k : nat) :
  length initial_values = 5 * k ->
  k < 13 ->
  exists interp_zeniths,
    zenith_loop initial_values 0 [] = Ok interp_zeniths /\
    length interp_zeniths = 71 * k /\
    interpolate_sky_measures initial_values = Raise IndexError.
Proof.
  intros Hlen Hk.
  pose proof (zenith_loop_blocks k initial_values 0 [] Hlen) as Hz.
  rewrite app_nil_l in Hz.
  set (iz := flat_map _ _) in Hz.
  assert (Hiz : length iz = 71 * k).
  { unfold iz. rewrite flat_map_length_uniform with (n := 71).
    - now rewrite length_seq.
    - intros. apply zenith_profile_length. }
  exists iz. split; [exact Hz|]. split; [exact Hiz|].
  unfold interpolate_sky_measures. rewrite Hz. cbn [bind].
  unfold azimuth_loop. rewrite len_ALL_ZENITH_VALUES.
  change (seq 0 71) with ([] ++ 0 :: seq 1 70).
  apply (for_each_raise _ (fun _ => [])).
  - intros x acc [].
  - intros acc. rewrite (gather_raise iz 0 k) by (assumption || lia).
    reflexivity.
Qed.

Lemma interpolate_too_few_witness :
  exists interp_zeniths,
    zenith_loop [] 0 [] = Ok interp_zeniths /\
    length interp_zeniths = 71 * 0 /\
    interpolate_sky_measures [] = Raise IndexError.
Proof. apply (interpolate_too_few [] 0); [reflexivity|lia]. Defined.

Lemma flat_map_ext_in {A B : Type} (f g : A -> list B) (l : list A) :
  (forall a, In a l -> f a = g a) -> flat_map f l = flat_map g l.
Proof.
  induction l as [|a l IH]; intros H; cbn [flat_map]; [reflexivity|].
  rewrite (H a) by now left.
  f_equal. apply IH. intros b Hb. apply H. now right.
Qed.

(** The azimuth pass reads the first thirteen blocks only. *)
Lemma all_azimuths_ext (iz iz' : list Q) :
  (forall n, n < 71 * 13 -> nth n iz 0%Q = nth n iz' 0%Q) ->
  all_azimuths_of iz = all_azimuths_of iz'.
Proof.
  intros Hext. unfold all_azimuths_of. apply flat_map_ext_in.
  intros i Hi. apply in_seq in Hi. rewrite len_ALL_ZENITH_VALUES in Hi.
  unfold sweep, gathered. do 2 f_equal. apply map_ext_in.
  intros j Hj. apply in_seq in Hj. rewrite len_AZIMUTHS in Hj.
  rewrite len_ALL_ZENITH_VALUES. apply Hext. lia.
Qed.

Lemma block_firstn (initial_values : list Q) (k : nat) :
  k < 13 -> block (firstn DATA_SIZE initial_values) k = block initial_values k.
Proof.
  intros Hk. rewrite !block_spec, skipn_firstn_comm, firstn_firstn.
  f_equal. change DATA_SIZE with 65. lia.
Qed.

(** X9. Values beyond the sixty-fifth are ignored: on a record of [5 * k]
    values with [k >= 13], [interpolate_sky_measures] returns what it
    returns on the first [DATA_SIZE] values, a sequence of [360 * 71]
    values. *)
Theorem interpolate_ignores_extra_blocks (initial_values : list Q) (k : nat) :
  length initial_values = 5 * k ->
  13 <= k ->
  exists all_azimuths,
    interpolate_sky_measures initial_values = Ok all_azimuths /\
    interpolate_sky_measures (firstn DATA_SIZE initial_values) =
      Ok all_azimuths /\
    length all_azimuths = 360 * 71.
Proof.
  intros Hlen Hk.
  exists (all_azimuths_of (interp_zeniths_of initial_values)).
  split; [|split].
  - pose proof (zenith_loop_blocks k initial_values 0 [] Hlen) as Hz.
    rewrite app_nil_l in Hz.
    assert (Hseq : seq 0 k = seq 0 13 ++ seq 13 (k - 13)).
    { change (seq 13 (k - 13)) with (seq (0 + 13) (k - 13)).
      rewrite <- seq_app. f_equal. lia. }
    rewrite Hseq, flat_map_app in Hz.
    change (flat_map _ (seq 0 13)) with (interp_zeniths_of initial_values) in Hz.
    unfold interpolate_sky_measures. rewrite Hz. cbn [bind].
    rewrite azimuth_loop_ok_ge
      by (rewrite length_app, interp_zeniths_length; lia).
    apply (f_equal Ok). apply all_azimuths_ext. intros n Hn.
    apply app_nth1. now rewrite interp_zeniths_length.
  - rewrite interpolate_ok
      by (rewrite length_firstn, Hlen; change DATA_SIZE with 65; lia).
    apply (f_equal Ok), (f_equal all_azimuths_of).
    unfold interp_zeniths_of. apply flat_map_ext_in.
    intros j Hj. apply in_seq in Hj. rewrite len_AZIMUTHS in Hj.
    rewrite block_firstn by lia. reflexivity.
  - apply all_azimuths_length.
Qed.

Lemma interpolate_ignores_extra_blocks_witness :
  exists all_azimuths,
    interpolate_sky_measures (repeat 5%Q 70) = Ok all_azimuths /\
    interpolate_sky_measures (firstn DATA_SIZE (repeat 5%Q 70)) =
      Ok all_azimuths /\
    length all_azimuths = 360 * 71.
Proof.
  apply (interpolate_ignores_extra_blocks (repeat 5%Q 70) 14);
    [reflexivity|lia].
Defined.

(** ** The seam under the fixed colour range *)

(** X10. The fixed colour range breaks the seam: for every record of
    [DATA_SIZE] values plotted with the flag unset, the array given to
    [contourf] has [LIGHTEST_VALUE] in cell [0][0] while its cell
    [360][0] still holds the record's first measure; unless that measure
    is [LIGHTEST_VALUE] itself, rows 0 and 360 of the array differ. *)
Theorem fixed_range_breaks_seam (title : string) (initial_values : list Q) :
  length initial_values = DATA_SIZE ->
  exists fixed,
    plot_polar title initial_values false = Ok fixed /\
    cell (fig_contourf fixed) 0 0 = LIGHTEST_VALUE /\
    (cell (fig_contourf fixed) 360 0 == measure initial_values 0 0)%Q /\
    (~ (measure initial_values 0 0 == LIGHTEST_VALUE)%Q ->
     nth_error (fig_contourf fixed) 0 <> nth_error (fig_contourf fixed) 360).
Proof.
  intros Hlen.
  destruct (assembled_shape initial_values Hlen) as (g & Hg & Hlg & Hrows).
  destruct (set_color_range_ok g Hlg Hrows)
    as (g' & Hset & Hlg' & Hrows' & Hcell).
  destruct (plot_polar_ok title initial_values false Hlen)
    as (az & h & h' & Hh & Hseth & Hfixed).
  assert (h = g) by congruence. subst h.
  assert (h' = g') by congruence. subst h'.
  destruct (last_row_cells initial_values Hlen) as (k & Hk & Hlast).
  assert (k = g) by congruence. subst k.
  eexists. split; [exact Hfixed|]. cbn [fig_contourf].
  assert (H00 : cell g' 0 0 = LIGHTEST_VALUE) by now rewrite Hcell.
  assert (H360 : (cell g' 360 0 == measure initial_values 0 0)%Q).
  { rewrite Hcell. cbn [Nat.eqb andb]. rewrite Hlast by lia.
    apply (sweeps_exact initial_values 0 0 Hlen); lia. }
  split; [exact H00|]. split; [exact H360|].
  intros Hne Hrows_eq. apply Hne.
  rewrite <- H360, <- H00. unfold cell.
  rewrite (nth_error_nth' g' [] (n := 0)) in Hrows_eq by lia.
  rewrite (nth_error_nth' g' [] (n := 360)) in Hrows_eq by lia.
  injection Hrows_eq as ->. reflexivity.
Qed.

Lemma fixed_range_breaks_seam_witness :
  exists fixed,
    plot_polar "Site A" constant_record false = Ok fixed /\
    cell (fig_contourf fixed) 0 0 = LIGHTEST_VALUE /\
    (cell (fig_contourf fixed) 360 0 == measure constant_record 0 0)%Q /\
    (~ (measure constant_record 0 0 == LIGHTEST_VALUE)%Q ->
     nth_error (fig_contourf fixed) 0 <> nth_error (fig_contourf fixed) 360).
Proof.
  apply (fixed_range_breaks_seam "Site A" constant_record). reflexivity.
Defined.

(** ** The title of the figure *)

(** X11. The processed title has the length of the title and contains
    neither a tab nor a newline; a title without them is left as it is. *)
Theorem title_processed_clean (title : string) :
  String.length (title_processed title) = String.length title /\
  occurrences "009" (title_processed title) = 0 /\
  occurrences "010" (title_processed title) = 0 /\
  (occurrences "009" title = 0 -> occurrences "010" title = 0 ->
   title_processed title = title).
Proof.
  induction title as [|c s (IHlen & IHtab & IHnl & IHid)].
  - repeat split; reflexivity.
  - cbn [title_processed String.length occurrences].
    rewrite IHlen, IHtab, IHnl.
    destruct (Ascii.eqb_spec c "009") as [->|Htab].
    + cbn. repeat split; try reflexivity. discriminate.
    + destruct (Ascii.eqb_spec c "010") as [->|Hnl].
      * cbn. repeat split; try reflexivity. discriminate.
      * cbn [orb].
        destruct (Ascii.eqb_spec c "009"); [contradiction|].
        destruct (Ascii.eqb_spec c "010"); [contradiction|].
        repeat split; try reflexivity.
        cbn [Nat.add]. intros Ht Hn. f_equal. now apply IHid.
Qed.

Lemma title_processed_clean_witness :
  title_processed "Site A" = "Site A"%string.
Proof.
  apply (proj2 (proj2 (proj2 (title_processed_clean "Site A"))));
    reflexivity.
Defined.

(** ** The data line *)

Lemma split_length (sep : ascii) (s : string) :
  length (split sep s) = S (occurrences sep s).
Proof.
  induction s as [|c s IH]; [reflexivity|].
  cbn [split occurrences].
  destruct (Ascii.eqb c sep).
  - cbn [length]. now rewrite IH.
  - destruct (split sep s) as [|w ws]; [discriminate IH|].
    cbn [length] in *. lia.
Qed.

Lemma no_occurrence_head (sep c : ascii) (w : string) :
  occurrences sep (String c w) = 0 ->
  Ascii.eqb c sep = false /\ occurrences sep w = 0.
Proof.
  cbn [occurrences]. destruct (Ascii.eqb c sep); [discriminate|].
  intros H. split; [reflexivity|exact H].
Qed.

Lemma split_clean (sep : ascii) (w : string) :
  occurrences sep w = 0 -> split sep w = [w].
Proof.
  induction w as [|c w IH]; intros H; [reflexivity|].
  apply no_occurrence_head in H. destruct H as [Hc Hw].
  cbn [split]. rewrite Hc, (IH Hw). reflexivity.
Qed.

Lemma split_app_sep (sep : ascii) (w rest : string) :
  occurrences sep w = 0 ->
  split sep (w ++ String sep rest) = w :: split sep rest.
Proof.
  induction w as [|c w IH]; intros H.
  - cbn [String.append split]. now rewrite Ascii.eqb_refl.
  - apply no_occurrence_head in H. destruct H as [Hc Hw].
    cbn [String.append split]. rewrite Hc, (IH Hw). reflexivity.
Qed.

(** Splitting what was joined gives the entries back. *)
Lemma split_join (sep : ascii) (l : list string) :
  l <> [] ->
  Forall (fun w => occurrences sep w = 0) l ->
  split sep (join (String sep EmptyString) l) = l.
Proof.
  induction l as [|w l IH]; intros Hne Hall; [congruence|].
  inversion Hall as [|? ? Hw Hl]; subst.
  destruct l as [|w' l].
  - cbn [join]. now apply split_clean.
  - change (join (String sep EmptyString) (w :: w' :: l))
      with (w ++ String sep (join (String sep EmptyString) (w' :: l)))%string.
    rewrite split_app_sep by exact Hw.
    f_equal. apply IH; [discriminate|exact Hl].
Qed.

Lemma comprehension_Forall2 {A B : Type} (f : A -> result B) (l : list A)
  (bs : list B) :
  Forall2 (fun a b => f a = Ok b) l bs -> comprehension f l = Ok bs.
Proof.
  induction 1 as [|a b l bs Hab _ IH]; cbn [comprehension]; [reflexivity|].
  now rewrite Hab, IH.
Qed.

(** X12. The size check counts separators: a file of at least two lines
    whose second line does not contain exactly 64 commas is refused by
    [data_is_valid], whatever [float] does and whatever lines follow, with
    the warning that names the number of entries, one more than the
    number of commas. *)
Theorem size_check_counts_separators (float : string -> result Q)
  (title data_line : string) (rest : list string) :
  occurrences DATA_SEPARATOR data_line <> 64 ->
  data_is_valid float (title :: data_line :: rest) =
    ([("Data size is not valid: "
       ++ str (S (occurrences DATA_SEPARATOR data_line)))%string],
     Ok None).
Proof.
  intros Hocc. unfold data_is_valid.
  cbn [length DATA_FILE_MIN_LINES Nat.leb getitem nth_error lift lbind
       DATA_FILE_ITEM_WITH_DATA].
  rewrite split_length.
  destruct (Nat.eqb_spec (S (occurrences DATA_SEPARATOR data_line)) DATA_SIZE)
    as [Heq|Hne]; [|reflexivity].
  change DATA_SIZE with 65 in Heq. lia.
Qed.

Lemma size_check_counts_separators_witness :
  data_is_valid float_of_decimal
    ["Site E"%string; "21.5,"%string; "more"%string] =
    (["Data size is not valid: 2"%string], Ok None).
Proof.
  apply (size_check_counts_separators float_of_decimal
           "Site E" "21.5," ["more"%string]).
  vm_compute. discriminate.
Defined.

(** X13. Reading back what was written: when 65 entries contain no comma
    and [float] converts each of them, the file made of a title line, the
    entries joined by commas, and any further lines is accepted without a
    warning, with the title line as the title and the converted entries,
    in order, as the measures. *)
Theorem data_is_valid_reads_entries (float : string -> result Q)
  (title : string) (entries : list string) (rest : list string)
  (values : list Q) :
  length entries = DATA_SIZE ->
  Forall (fun w => occurrences DATA_SEPARATOR w = 0) entries ->
  Forall2 (fun w v => float w = Ok v) entries values ->
  data_is_valid float
    (title :: join (String DATA_SEPARATOR EmptyString) entries :: rest) =
    ([], Ok (Some (title, values))).
Proof.
  intros Hlen Hclean Hfloat.
  assert (Hsplit : split DATA_SEPARATOR
                     (join (String DATA_SEPARATOR EmptyString) entries) =
                   entries).
  { apply split_join; [|exact Hclean].
    intros ->. discriminate Hlen. }
  destruct (data_is_valid_sized float
              (title :: join (String DATA_SEPARATOR EmptyString) entries
                 :: rest))
    as (title' & data_line & Htitle & Hline & Hres).
  { unfold entry_count. cbn [nth_error DATA_FILE_ITEM_WITH_DATA option_map].
    now rewrite Hsplit, Hlen. }
  cbn [nth_error DATA_FILE_ITEM_WITH_DATA DATA_FILE_ITEM_WITH_TITLE]
    in Htitle, Hline.
  injection Htitle as <-. injection Hline as <-.
  rewrite Hres, Hsplit, (comprehension_Forall2 float entries values Hfloat).
  reflexivity.
Qed.

Lemma good_entries_clean :
  Forall (fun w => occurrences DATA_SEPARATOR w = 0)
    (repeat "21.5"%string 65).
Proof.
  apply Forall_forall. intros w Hw. apply repeat_spec in Hw. now subst w.
Qed.

Lemma good_entries_float :
  Forall2 (fun w v => float_of_decimal w = Ok v)
    (repeat "21.5"%string 65) (repeat 21.5%Q 65).
Proof.
  assert (H : forall n,
             Forall2 (fun w v => float_of_decimal w = Ok v)
               (repeat "21.5"%string n) (repeat 21.5%Q n)).
  { induction n; cbn [repeat]; constructor; [reflexivity|assumption]. }
  apply H.
Qed.

Lemma data_is_valid_reads_entries_witness :
  data_is_valid float_of_decimal
    ("Site A"%string
     :: join (String DATA_SEPARATOR EmptyString) (repeat "21.5"%string 65)
     :: []) =
    ([], Ok (Some ("Site A"%string, repeat 21.5%Q 65))).
Proof.
  apply (data_is_valid_reads_entries float_of_decimal "Site A"
           (repeat "21.5"%string 65) [] (repeat 21.5%Q 65)).
  - reflexivity.
  - exact good_entries_clean.
  - exact good_entries_float.
Defined.

(** ** read_data_files and main over several files *)



Section ReadingFiles.

Variable float : string -> result Q.

Lemma read_loop_returns (files : list (string * list string)) :
  (forall file, In file files ->
     exists w o, data_is_valid float (snd file) = (w, Ok o)) ->
  forall acc,
  lfor_each files
    (fun file data =>
       let '(data_file_name, this_data) := file in
       data_read <~ data_is_valid float this_data ;;
       match data_read with
       | Some item => ret (data ++ [item])
       | None =>
           warning ("Data is not valid from file: " ++ data_file_name) ;;;
           ret data
       end) acc =
  (flat_map (file_warnings float) files,
   Ok (acc ++ flat_map (kept float) files)).
Proof.
  induction files as [|[name lines] files IH]; intros Hret acc.
  - cbn [lfor_each ret flat_map]. now rewrite app_nil_r.
  - cbn [lfor_each flat_map]. unfold file_warnings at 1, kept at 1.
    cbn [fst snd].
    destruct (Hret (name, lines)) as (w & o & Hvalid); [now left|].
    cbn [snd] in Hvalid. rewrite Hvalid. cbn [fst snd lbind].
    assert (Htail : forall file, In file files ->
              exists w o, data_is_valid float (snd file) = (w, Ok o))
      by (intros file Hin; apply Hret; now right).
    destruct o as [item|]; cbn [ret warning lbind app].
    + rewrite (IH Htail). rewrite <- !app_assoc. reflexivity.
    + rewrite (IH Htail). rewrite <- ?app_assoc. reflexivity.
Qed.




End ReadingFiles.

Lemma read_data_files_loop (float : string -> result Q)
  (files : list (string * list string)) :
  (forall file, In file files ->
     exists w o, data_is_valid float (snd file) = (w, Ok o)) ->
  read_data_files float files =
    (flat_map (file_warnings float) files,
     Ok (flat_map (kept float) files)).
Proof.
  intros Hret. unfold read_data_files.
  now rewrite (read_loop_returns float files Hret []).
Qed.

(** X14. [read_data_files] is an ordered filter: when [data_is_valid]
    raises on none of the files, it returns the accepted records in file
    order, and logs, file by file, the warnings of [data_is_valid]
    followed by one "Data is not valid from file" warning for each file
    that was refused. *)
Theorem read_data_files_keeps_in_order (float : string -> result Q)
  (files : list (string * list string)) :
  (forall file, In file files ->
     exists w o, data_is_valid float (snd file) = (w, Ok o)) ->
  read_data_files float files =
    (flat_map (file_warnings float) files,
     Ok (flat_map (kept float) files)).
Proof.
  intros Hret. now apply read_data_files_loop.
Qed.

Lemma good_and_short_return :
  forall file,
    In file [("a.dat"%string, good_file); ("b.dat"%string, file_64)] ->
    exists w o, data_is_valid float_of_decimal (snd file) = (w, Ok o).
Proof.
  intros file [<-|[<-|[]]]; eexists; eexists; vm_compute; reflexivity.
Qed.

Lemma read_data_files_keeps_in_order_witness :
  read_data_files float_of_decimal
    [("a.dat"%string, good_file); ("b.dat"%string, file_64)] =
    (flat_map (file_warnings float_of_decimal)
       [("a.dat"%string, good_file); ("b.dat"%string, file_64)],
     Ok (flat_map (kept float_of_decimal)
           [("a.dat"%string, good_file); ("b.dat"%string, file_64)])).
Proof.
  apply (read_data_files_keeps_in_order float_of_decimal
           [("a.dat"%string, good_file); ("b.dat"%string, file_64)]).
  exact good_and_short_return.
Defined.







(** ** init_log *)

Lemma dict_get_absent {V : Type} (d : list (string * V)) (key : string) :
  ~ In key (map fst d) -> dict_get d key = None.
Proof.
  induction d as [|[k v] d IH]; intros Hnot; [reflexivity|].
  cbn [dict_get]. destruct (String.eqb_spec k key) as [->|Hne].
  - exfalso. apply Hnot. now left.
  - apply IH. intros Hin. apply Hnot. now right.
Qed.

(** X17. The level of the log: without [-v], [init_log] sets WARNING
    (30); with [-v name] it sets the level [LOG_LEVELS] gives for [name],
    and for a name that is not one of the five keys, which are upper case,
    the lookup raises KeyError; the handler writes to standard output, or
    is built on the name given with [-l]. *)
Theorem init_log_level (progargs : ProgramArguments) :
  let log_file :=
    match arg_l (parsed progargs) with
    | Some name => Named name
    | None => Stdout
    end in
  (arg_v (parsed progargs) = None ->
   init_log progargs = Configured 30 log_file) /\
  (forall name level,
     arg_v (parsed progargs) = Some name ->
     In (name, level) LOG_LEVELS ->
     init_log progargs = Configured level log_file) /\
  (forall name,
     arg_v (parsed progargs) = Some name ->
     ~ In name (map fst LOG_LEVELS) ->
     init_log progargs = KeyError name).
Proof.
  cbv zeta. unfold init_log. split; [|split].
  - intros ->. reflexivity.
  - intros name level -> Hin.
    repeat (destruct Hin as [Hin|Hin];
            [injection Hin as <- <-; reflexivity|]).
    contradiction.
  - intros name -> Hnot. now rewrite (dict_get_absent LOG_LEVELS name Hnot).
Qed.

Lemma init_log_level_witness :
  init_log (Progargs "/data" (Args None false false None (Some "debug"%string)))
  = KeyError "debug".
Proof.
  apply (proj2 (proj2 (init_log_level
           (Progargs "/data"
              (Args None false false None (Some "debug"%string)))))
           "debug"%string).
  - reflexivity.
  - cbn. intros H.
    repeat (destruct H as [H|H]; [discriminate H|]). contradiction.
Defined.

(** ** Between two sampled azimuths *)

(** Inside a segment the interpolation is the line through its ends. *)
Lemma interp1_segment (xp : list Q) :
  forall fp j x,
  strictly_increasing xp -> length fp = length xp -> S j < length xp ->
  (nth j xp 0 <= x)%Q -> (x < nth (S j) xp 0)%Q ->
  interp1 xp fp x =
  ((nth (S j) fp 0 - nth j fp 0) / (nth (S j) xp 0 - nth j xp 0)
   * (x - nth j xp 0) + nth j fp 0)%Q.
Proof.
  assert (Hfrom : forall xp fp j x,
            strictly_increasing xp -> length fp = length xp ->
            S j < length xp ->
            (nth j xp 0 <= x)%Q -> (x < nth (S j) xp 0)%Q ->
            interp_from x xp fp =
            ((nth (S j) fp 0 - nth j fp 0) / (nth (S j) xp 0 - nth j xp 0)
             * (x - nth j xp 0) + nth j fp 0)%Q).
  { clear xp. induction xp as [|x0 xp IH]; intros fp j x Hinc Hlen Hj Hlo Hhi;
      [cbn in Hj; lia|].
    destruct fp as [|y0 fp]; [discriminate Hlen|].
    destruct xp as [|x1 xp]; [cbn in Hj; lia|].
    destruct fp as [|y1 fp]; [discriminate Hlen|].
    rewrite interp_from_step. destruct j as [|j].
    - cbn [nth] in *. apply Qltb_true in Hhi. now rewrite Hhi.
    - change (nth (S j) (x0 :: x1 :: xp) 0%Q) with (nth j (x1 :: xp) 0%Q) in *.
      change (nth (S (S j)) (x0 :: x1 :: xp) 0%Q)
        with (nth (S j) (x1 :: xp) 0%Q) in *.
      change (nth (S j) (y0 :: y1 :: fp) 0%Q) with (nth j (y1 :: fp) 0%Q).
      change (nth (S (S j)) (y0 :: y1 :: fp) 0%Q)
        with (nth (S j) (y1 :: fp) 0%Q).
      assert (Hge : (x1 <= x)%Q).
      { apply Qle_trans with (nth j (x1 :: xp) 0%Q); [|exact Hlo].
        apply increasing_head_le; [now apply increasing_tail in Hinc|].
        cbn [length] in *. lia. }
      apply Qltb_false in Hge. rewrite Hge.
      apply IH; auto;
        first [ now apply increasing_tail in Hinc
              | cbn [length] in *; lia ]. }
  intros fp j x Hinc Hlen Hj Hlo Hhi. unfold interp1.
  destruct xp as [|x0 xp]; [cbn in Hj; lia|].
  destruct fp as [|y0 fp]; [discriminate Hlen|].
  assert (Hge : (x0 <= x)%Q).
  { apply Qle_trans with (nth j (x0 :: xp) 0%Q); [|exact Hlo].
    apply increasing_head_le; [exact Hinc|lia]. }
  apply Qltb_false in Hge. rewrite Hge.
  now apply Hfrom.
Qed.

Lemma nth_AZIMUTH_RANGE (a : nat) :
  a < 361 -> nth a AZIMUTH_RANGE 0%Z = Z.of_nat a.
Proof.
  intros Ha.
  change AZIMUTH_RANGE with (map (fun k => (0 + Z.of_nat k)%Z) (seq 0 361)).
  now rewrite nth_map_seq.
Qed.

Lemma nth_AZIMUTHS (j : nat) :
  j < 13 -> nth j (map inject_Z AZIMUTHS) 0%Q = inject_Z (30 * Z.of_nat j).
Proof.
  intros Hj. do 13 (destruct j as [|j]; [reflexivity|]). lia.
Qed.

Lemma inject_Z_diff (a b c : Z) :
  (a - b = c)%Z -> (inject_Z a - inject_Z b == inject_Z c)%Q.
Proof.
  intros <-. unfold Qminus, Z.sub.
  now rewrite inject_Z_plus, inject_Z_opp.
Qed.

(** X18. Between two sampled azimuths the azimuth pass is linear: for
    every record of [DATA_SIZE] values, zenith index [z], sampled azimuth
    number [j < 12] and offset [t < 30], the value that [np.interp]
    returns at dense azimuth [30 * j + t] is the gathered value [v j] plus
    [t / 30] of the step to the next gathered value. *)
Theorem azimuth_pass_linear (initial_values : list Q) (z j t : nat) :
  length initial_values = DATA_SIZE ->
  z < length ALL_ZENITH_VALUES ->
  j < length AZIMUTHS - 1 ->
  t < 30 ->
  exists interp_zeniths values_at_zenith int,
    zenith_loop initial_values 0 [] = Ok interp_zeniths /\
    gather_at_zenith interp_zeniths z = Ok values_at_zenith /\
    np_interp AZIMUTH_RANGE AZIMUTHS values_at_zenith = Ok int /\
    (nth (30 * j + t) int 0
     == nth j values_at_zenith 0
        + (nth (S j) values_at_zenith 0 - nth j values_at_zenith 0)
          * inject_Z (Z.of_nat t) / 30)%Q.
Proof.
  intros Hlen Hz Hj Ht.
  rewrite len_ALL_ZENITH_VALUES in Hz. change (length AZIMUTHS - 1) with 12 in Hj.
  set (iz := interp_zeniths_of initial_values).
  exists iz, (gathered iz z), (azimuth_profile (gathered iz z)).
  split; [apply zenith_pass_ok, Hlen|].
  split; [apply gather_ok; unfold iz; rewrite interp_zeniths_length; lia|].
  split; [apply np_interp_ok; [discriminate|apply gathered_length]|].
  generalize (gathered_length iz z). generalize (gathered iz z).
  intros prof Hprof.
  unfold azimuth_profile.
  rewrite (nth_map_in _ _ _ 0%Z) by (rewrite len_AZIMUTH_RANGE; lia).
  rewrite nth_AZIMUTH_RANGE by lia.
  rewrite (interp1_segment (map inject_Z AZIMUTHS) prof j).
  - rewrite !nth_AZIMUTHS by lia.
    rewrite (inject_Z_diff (30 * Z.of_nat (S j)) (30 * Z.of_nat j) 30) by lia.
    rewrite (inject_Z_diff (Z.of_nat (30 * j + t)) (30 * Z.of_nat j)
               (Z.of_nat t)) by lia.
    change (inject_Z 30) with 30%Q. field.
  - apply AZIMUTHS_increasing.
  - now rewrite length_map.
  - rewrite length_map, len_AZIMUTHS. lia.
  - rewrite nth_AZIMUTHS by lia. rewrite <- Zle_Qle. lia.
  - rewrite nth_AZIMUTHS by lia. rewrite <- Zlt_Qlt. lia.
Qed.

Lemma azimuth_pass_linear_witness :
  exists interp_zeniths values_at_zenith int,
    zenith_loop spike_record 0 [] = Ok interp_zeniths /\
    gather_at_zenith interp_zeniths 20 = Ok values_at_zenith /\
    np_interp AZIMUTH_RANGE AZIMUTHS values_at_zenith = Ok int /\
    (nth (30 * 1 + 20) int 0
     == nth 1 values_at_zenith 0
        + (nth 2 values_at_zenith 0 - nth 1 values_at_zenith 0)
          * inject_Z (Z.of_nat 20) / 30)%Q.
Proof.
  apply (azimuth_pass_linear spike_record 20 1 20);
    [reflexivity | vm_compute; lia | vm_compute; lia | lia].
Defined.
